(** * gemini-twitter-mirror: the tweet cache and the Gemini request handler

    A shallow embedding of [main.go].  Go values are modelled as follows:
    - [int], [time.Time] and [time.Duration] are [Z] (the 64-bit bounds are
      written out where the code can reach them);
    - [string] is [string] (a sequence of bytes, as in Go);
    - a Go result pair [(v, err)] is a pair [(v, e)] with [e : option error],
      [None] standing for [nil];
    - a run-time panic is the [Panic] outcome of the [outcome] monad;
    - [url.Values] (a Go map) is a [gmap], and the order in which [range]
      visits it is an explicit argument. *)

From Stdlib Require Import ZArith Ascii String List Lia Sorted.
From Stdlib Require DecimalString DecimalNat.
From stdpp Require Import base option list gmap strings fin_maps.

Local Open Scope string_scope.
Local Open Scope list_scope.
Local Open Scope Z_scope.

(** ** Go run-time values *)

Module Go.

(** Values of Go's [error] interface that this program can observe. *)
Inductive error : Type :=
| ErrNotExist                                  (* os.ErrNotExist *)
| ErrSyntax                                    (* strconv.ErrSyntax *)
| ErrRange                                     (* strconv.ErrRange *)
| errors_New (msg : string)                    (* errors.New(msg) *)
| PathError (op path : string) (inner : error) (* *os.PathError *)
| NumError (fn num : string) (inner : error)   (* *strconv.NumError *)
| Errno (n : Z)                                (* syscall.Errno *)
| UpstreamError (msg : string).                (* whatever the API client reports *)

(** [err == os.ErrNotExist]: interface equality with the sentinel. *)
Definition is_ErrNotExist (e : option error) : bool :=
  match e with
  | Some ErrNotExist => true
  | _ => false
  end.

Inductive runtime_error : Type :=
| IndexOutOfRange (index length : Z).

(** A computation either returns or panics. *)
Inductive outcome (A : Type) : Type :=
| Ret (a : A)
| Panic (p : runtime_error).
Arguments Ret {A} a.
Arguments Panic {A} p.

Definition bind {A B} (m : outcome A) (k : A -> outcome B) : outcome B :=
  match m with
  | Ret a => k a
  | Panic p => Panic p
  end.

Definition returns {A} (m : outcome A) : Prop := exists a, m = Ret a.

Definition len {A} (l : list A) : Z := Z.of_nat (length l).

(** [s[i]] on a slice: panics outside [0 <= i < len(s)]. *)
Definition index {A} (s : list A) (i : Z) : outcome A :=
  if i <? 0 then Panic (IndexOutOfRange i (len s))
  else match s !! Z.to_nat i with
       | Some x => Ret x
       | None => Panic (IndexOutOfRange i (len s))
       end.

Definition LF : string := String "010"%char EmptyString.

Definition minInt : Z := - 2 ^ 63.
Definition maxInt : Z := 2 ^ 63 - 1.

(** *** [strconv.Atoi] (base 10, 64-bit [int])

    An optional sign, then at least one decimal digit and nothing else;
    a value outside the [int] range is a range error. *)

Definition digit_of (ch : ascii) : option Z :=
  let n := Z.of_N (N_of_ascii ch) in
  if (48 <=? n) && (n <=? 57) then Some (n - 48) else None.

Fixpoint digits (s : string) (n : Z) : option Z :=
  match s with
  | EmptyString => Some n
  | String ch s' =>
      match digit_of ch with
      | Some d => digits s' (n * 10 + d)
      | None => None
      end
  end.

Definition syntaxError (s0 : string) : Z * option error :=
  (0, Some (NumError "Atoi" s0 ErrSyntax)).

Definition strconv_Atoi (s0 : string) : Z * option error :=
  match s0 with
  | EmptyString => syntaxError s0
  | String c rest =>
      let neg := Ascii.eqb c "-" in
      let s := if neg || Ascii.eqb c "+" then rest else s0 in
      match s with
      | EmptyString => syntaxError s0
      | _ =>
          match digits s 0 with
          | None => syntaxError s0
          | Some n =>
              let v := if neg then - n else n in
              if v <? minInt then (minInt, Some (NumError "Atoi" s0 ErrRange))
              else if maxInt <? v then (maxInt, Some (NumError "Atoi" s0 ErrRange))
              else (v, None)
          end
      end
  end.

End Go.

Import Go.

Notation "'let!' x ':=' m 'in' k" := (bind m (fun x => k))
  (at level 10, x name, m at level 100, k at level 200).

(** ** Configuration *)

Record Addr := { Host : string; Port : Z }.
Record Cert := { CertFile : string; KeyFile : string }.
Record Twitter := {
  ConsumerKey : string; ConsumerSecret : string;
  AccessToken : string; AccessSecret : string;
  UserID : Z; ScreenName : string }.
Record UI := { AsciiLogoFile : string; Delimiter : string }.

Record Config := {
  Config_Addr : Addr;
  Config_Cert : Cert;
  Config_Twitter : Twitter;
  Config_UI : UI }.

(** ** The tweet cache *)

(** The fields of [twitter.User] and [twitter.Tweet] that the program reads.
    The library holds the user behind a pointer; the timeline endpoint always
    sends the user object, so the model takes it as present. *)
Record User := { Name : string }.
Record Tweet := { Text : string; Tweet_User : User }.

Record TweetCache := {
  Tweets : list Tweet;
  LastRefresh : Z (* nanoseconds; 0 is the zero [time.Time] *) }.

Definition twit_not_available : error := errors_New "twit not available".

Definition GetOnPosition (tc : TweetCache) (pos : Z) : outcome (string * option error) :=
  if (len (Tweets tc) =? 0) || (len (Tweets tc) - 1 <? pos) then
    Ret (EmptyString, Some twit_not_available)
  else
    let! tweet := index (Tweets tc) pos in
    Ret (Text tweet +:+ LF +:+ LF +:+ Name (Tweet_User tweet), None).


(** ** The refresh loop

    [Refresher] never returns, so it is modelled one iteration at a time.
    The loop's surroundings are a clock that never runs backwards and the
    Twitter API; what they do during one iteration is an [Env]. *)

Definition Nanosecond : Z := 1.
Definition Minute : Z := 60 * 1000000000 * Nanosecond.

Definition minDuration : Z := - 2 ^ 63.
Definition maxDuration : Z := 2 ^ 63 - 1.

(** [t.Sub(u)], saturating at the bounds of [time.Duration]. *)
Definition time_Sub (t u : Z) : Z :=
  let d := t - u in
  if d <? minDuration then minDuration
  else if maxDuration <? d then maxDuration
  else d.

Definition time_Since (now t : Z) : Z := time_Sub now t.

Record Env := {
  elapsed : N;                                (* time passing before the interval check *)
  UserTimeline : list Tweet * option error;   (* the API client's answer, were it asked *)
  fetch_took : N;                             (* duration of the call *)
  overslept : N                               (* [time.Sleep] may sleep longer than asked *) }.

Definition getTweets (e : Env) : list Tweet * option error :=
  let '(tweets, err) := UserTimeline e in
  match err with
  | Some err => ([], Some err)
  | None => (tweets, None)
  end.

Inductive event : Type :=
| EvFetch (called returned : Z)          (* a call of [getTweets] *)
| EvSleep (d : Z)                        (* a call of [time.Sleep] *)
| EvCommit (snapshot : list Tweet) (at_ : Z).  (* the two assignments to [tc] *)

Record World := { cache : TweetCache; clock : Z }.

Definition Refresher_iteration (e : Env) (w : World) : World * list event :=
  let tc := cache w in
  let now := clock w + Z.of_N (elapsed e) in
  if time_Since now (LastRefresh tc) <? Minute * 15 then
    ({| cache := tc; clock := now |}, [])
  else
    let '(tweets, err) := getTweets e in
    let now' := now + Z.of_N (fetch_took e) in
    match err with
    | Some _ =>
        ({| cache := tc; clock := now' + Minute * 5 + Z.of_N (overslept e) |},
         [EvFetch now now'; EvSleep (Minute * 5)])
    | None =>
        if len tweets <? len (Tweets tc) then
          ({| cache := tc; clock := now' |}, [EvFetch now now'])
        else
          ({| cache := {| Tweets := tweets; LastRefresh := now' |}; clock := now' |},
           [EvFetch now now'; EvCommit tweets now'])
    end.

(** The first [length es] iterations of [for { ... }]. *)
Fixpoint Refresher (es : list Env) (w : World) : World * list event :=
  match es with
  | [] => (w, [])
  | e :: es' =>
      let '(w1, tr1) := Refresher_iteration e w in
      let '(w2, tr2) := Refresher es' w1 in
      (w2, tr1 ++ tr2)
  end.

(** The cache states after each of the iterations, oldest first. *)
Fixpoint Refresher_states (es : list Env) (w : World) : list TweetCache :=
  match es with
  | [] => []
  | e :: es' =>
      let w1 := fst (Refresher_iteration e w) in
      cache w1 :: Refresher_states es' w1
  end.

Definition commits (tr : list event) : list (list Tweet) :=
  omap (fun ev => match ev with EvCommit s _ => Some s | _ => None end) tr.

Definition fetch_calls (tr : list event) : list Z :=
  omap (fun ev => match ev with EvFetch t _ => Some t | _ => None end) tr.

Definition sleeps (tr : list event) : list Z :=
  omap (fun ev => match ev with EvSleep d => Some d | _ => None end) tr.

(** [tc := TweetCache{Config: c}] in [main]. *)
Definition TweetCache_zero : TweetCache := {| Tweets := []; LastRefresh := 0 |}.

(** ** The request handler *)

Record URL := { Path : string; Query : gmap string (list string) }.
Record Request := { Request_URL : URL }.

Record Response := {
  Status : Z;
  Meta : string;
  Body : option string;  (* [None] is a nil reader *)
  Response_Cert : option string }.

(** The handler holds a pointer to the cache; [RH_TweetCache] is what the
    pointer leads to while the request is served. *)
Record RequestHandler := {
  RH_TweetCache : TweetCache;
  RH_Config : Config }.

(** The files the process can see: a path that is not bound does not exist.
    [os.Open] then returns a nil file and a [*PathError] wrapping [ENOENT]. *)
Definition ENOENT : error := Errno 2.

Definition os_Open (fs : gmap string string) (name : string)
  : option string * option error :=
  match fs !! name with
  | Some content => (Some content, None)
  | None => (None, Some (PathError "open" name ENOENT))
  end.

(** [io.Copy(&b, fl)] with the result dropped: reading a nil file fails at
    once and leaves the builder as it was. *)
Definition io_Copy (b : string) (fl : option string) : string :=
  match fl with
  | Some content => b +:+ content
  | None => b
  end.

Definition getFooter (rh : RequestHandler) : string :=
  LF +:+ LF +:+
  "=> https://github.com/vegasq/gemini-twitter-mirror Fork me on GitHub" +:+ LF.

Definition menu : string :=
  LF +:+ LF +:+
  "=> / Last tweet" +:+ LF +:+
  "=> /timeline Timeline" +:+ LF +:+
  "=> /select_tweet Tweet selector" +:+ LF +:+ LF.

Definition getHeader (fs : gmap string string) (rh : RequestHandler) : string :=
  let '(fl, err) := os_Open fs (AsciiLogoFile (Config_UI (RH_Config rh))) in
  let logo :=
    if is_ErrNotExist err then EmptyString
    else io_Copy EmptyString fl in
  logo +:+ menu.

Definition timeline_entry (rh : RequestHandler) (tw : string) : string :=
  LF +:+ LF +:+ tw +:+ LF +:+ LF +:+ Delimiter (Config_UI (RH_Config rh)).

(** [for i := 0; i < 10; i += 1]: [n] iterations are left, starting at [i]. *)
Fixpoint formatTimeline_loop (rh : RequestHandler) (n : nat) (i : Z) (timeline : string)
  : outcome string :=
  match n with
  | O => Ret timeline
  | S n' =>
      let! r := GetOnPosition (RH_TweetCache rh) i in
      let '(tw, err) := r in
      match err with
      | Some _ => formatTimeline_loop rh n' (i + 1) timeline
      | None => formatTimeline_loop rh n' (i + 1) (timeline +:+ timeline_entry rh tw)
      end
  end.

Definition formatTimeline (rh : RequestHandler) : outcome string :=
  formatTimeline_loop rh 10 0 EmptyString.

Definition formatTweet (rh : RequestHandler) (pos : Z) : outcome string :=
  let! r := GetOnPosition (RH_TweetCache rh) pos in
  let '(tw, err) := r in
  match err with
  | Some _ => Ret EmptyString
  | None => Ret (LF +:+ LF +:+ tw)
  end.

Definition wrapBody (fs : gmap string string) (rh : RequestHandler) (body : string) : string :=
  getHeader fs rh +:+ body +:+ getFooter rh.

Definition showTweet (fs : gmap string string) (rh : RequestHandler) (offset : Z)
  : outcome Response :=
  let! content := formatTweet rh offset in
  Ret {| Status := 20; Meta := "text/gemini";
         Body := Some (wrapBody fs rh content); Response_Cert := None |}.

Definition showTimeline (fs : gmap string string) (rh : RequestHandler) : outcome Response :=
  let! content := formatTimeline rh in
  Ret {| Status := 20; Meta := "text/gemini";
         Body := Some (wrapBody fs rh content); Response_Cert := None |}.

(** [for k := range params { return k }]: Go visits a map in an order of its
    own choosing, so the key that comes first is the [pick]-th one. *)
Definition getFirstKeyFromURL (pick : nat) (u : URL) : string :=
  let params := map_to_list (Query u) in
  match params with
  | [] => EmptyString
  | kv :: _ => fst (nth (pick mod length params) params kv)
  end.

Definition input_prompt : Response :=
  {| Status := 10; Meta := "Get tweet offset. f.e. 5"; Body := None; Response_Cert := None |}.

Definition parse_failure : Response :=
  {| Status := 42; Meta := "Failed to parse input. Please use numbers.";
     Body := None; Response_Cert := None |}.

Definition unknown_location : Response :=
  {| Status := 51; Meta := "Unknown location"; Body := None; Response_Cert := None |}.

Definition Handle (fs : gmap string string) (pick : nat) (rh : RequestHandler) (r : Request)
  : outcome Response :=
  let u := Request_URL r in
  let params := Query u in
  if String.eqb (Path u) "/" then
    showTweet fs rh 0
  else if String.eqb (Path u) "/timeline" then
    showTimeline fs rh
  else if String.eqb (Path u) "/select_tweet" && (Z.of_nat (size params) =? 0) then
    Ret input_prompt
  else if String.eqb (Path u) "/select_tweet" then
    let '(offset, err) := strconv_Atoi (getFirstKeyFromURL pick u) in
    match err with
    | Some _ => Ret parse_failure
    | None => showTweet fs rh offset
    end
  else
    Ret unknown_location.

(** ** Vocabulary of the properties, and sample data *)

(** What a successful [GetOnPosition] hands back for a tweet. *)
Definition tweet_and_author (tweet : Tweet) : string :=
  Text tweet +:+ LF +:+ LF +:+ Name (Tweet_User tweet).

Definition succeeds (r : outcome (string * option error)) : Prop :=
  exists s, r = Ret (s, None).

Definition tweet_a : Tweet := {| Text := "first"; Tweet_User := {| Name := "ann" |} |}.
Definition tweet_b : Tweet := {| Text := "second"; Tweet_User := {| Name := "bob" |} |}.
Definition tweet_c : Tweet := {| Text := "third"; Tweet_User := {| Name := "cy" |} |}.

Definition cache_abc : TweetCache :=
  {| Tweets := [tweet_a; tweet_b; tweet_c]; LastRefresh := 1000 |}.

Definition success_page (body : string) : Response :=
  {| Status := 20; Meta := "text/gemini"; Body := Some body; Response_Cert := None |}.

(** One timeline item as the client sees it: the tweet, its author, the
    configured delimiter. *)
Definition rendered_item (rh : RequestHandler) (tweet : Tweet) : string :=
  LF +:+ LF +:+ Text tweet +:+ LF +:+ LF +:+ Name (Tweet_User tweet) +:+
  LF +:+ LF +:+ Delimiter (Config_UI (RH_Config rh)).

Definition concat_all (items : list string) : string :=
  foldr String.append EmptyString items.

Definition config_dash : Config :=
  {| Config_Addr := {| Host := "localhost"; Port := 1965 |};
     Config_Cert := {| CertFile := "cert.pem"; KeyFile := "key.pem" |};
     Config_Twitter := {| ConsumerKey := "ck"; ConsumerSecret := "cs";
                          AccessToken := "at"; AccessSecret := "as";
                          UserID := 12; ScreenName := "jack" |};
     Config_UI := {| AsciiLogoFile := "logo.txt"; Delimiter := "-----" |} |}.

Definition handler_abc : RequestHandler :=
  {| RH_TweetCache := cache_abc; RH_Config := config_dash |}.

Definition handler_empty : RequestHandler :=
  {| RH_TweetCache := TweetCache_zero; RH_Config := config_dash |}.

Definition request (path : string) (query : gmap string (list string)) : Request :=
  {| Request_URL := {| Path := path; Query := query |} |}.

(** The responses [Handle] is written to give. *)
Inductive documented (fs : gmap string string) (rh : RequestHandler) : Response -> Prop :=
| doc_page (content : string) : documented fs rh (success_page (wrapBody fs rh content))
| doc_prompt : documented fs rh input_prompt
| doc_parse_failure : documented fs rh parse_failure
| doc_unknown : documented fs rh unknown_location.

Definition handler_one : RequestHandler :=
  {| RH_TweetCache := {| Tweets := [tweet_a]; LastRefresh := 1000 |};
     RH_Config := config_dash |}.

Definition select_minus_1 : Request :=
  request "/select_tweet" {[ "-1" := [EmptyString] ]}.

Definition select_minus_7 : Request :=
  request "/select_tweet" {[ "-7" := [EmptyString] ]}.

(** Whether an iteration gets past the interval check. *)
Definition due (e : Env) (w : World) : bool :=
  negb (time_Since (clock w + Z.of_N (elapsed e)) (LastRefresh (cache w)) <? Minute * 15).

Inductive iteration_result (e : Env) (w : World) : World * list event -> Prop :=
| iter_wait :
    due e w = false ->
    iteration_result e w ({| cache := cache w; clock := clock w + Z.of_N (elapsed e) |}, [])
| iter_error (tweets : list Tweet) (err : error) :
    due e w = true -> UserTimeline e = (tweets, Some err) ->
    let called := clock w + Z.of_N (elapsed e) in
    let returned := called + Z.of_N (fetch_took e) in
    iteration_result e w
      ({| cache := cache w; clock := returned + Minute * 5 + Z.of_N (overslept e) |},
       [EvFetch called returned; EvSleep (Minute * 5)])
| iter_short (tweets : list Tweet) :
    due e w = true -> UserTimeline e = (tweets, None) ->
    len tweets < len (Tweets (cache w)) ->
    let called := clock w + Z.of_N (elapsed e) in
    let returned := called + Z.of_N (fetch_took e) in
    iteration_result e w ({| cache := cache w; clock := returned |}, [EvFetch called returned])
| iter_commit (tweets : list Tweet) :
    due e w = true -> UserTimeline e = (tweets, None) ->
    len (Tweets (cache w)) <= len tweets ->
    let called := clock w + Z.of_N (elapsed e) in
    let returned := called + Z.of_N (fetch_took e) in
    iteration_result e w
      ({| cache := {| Tweets := tweets; LastRefresh := returned |}; clock := returned |},
       [EvFetch called returned; EvCommit tweets returned]).

Definition no_shorter (s1 s2 : list Tweet) : Prop := (length s1 <= length s2)%nat.

Definition second : Z := 1000000000 * Nanosecond.

Definition world_start : World :=
  {| cache := TweetCache_zero; clock := 1700000000 * second |}.

Definition env_abc : Env :=
  {| elapsed := 0; UserTimeline := ([tweet_a; tweet_b; tweet_c], None);
     fetch_took := 2000000000; overslept := 0 |}.

Definition env_short : Env :=
  {| elapsed := 900000000000; UserTimeline := ([tweet_c], None);
     fetch_took := 2000000000; overslept := 0 |}.

Definition env_error : Env :=
  {| elapsed := 900000000000; UserTimeline := ([], Some (UpstreamError "timeout"));
     fetch_took := 2000000000; overslept := 7 |}.

Definition env_spin : Env :=
  {| elapsed := 0; UserTimeline := ([tweet_a; tweet_b; tweet_c], None);
     fetch_took := 2000000000; overslept := 0 |}.

Definition world_abc : World := fst (Refresher [env_abc] world_start).

(** The decimal numeral of [n], as a client would type it. *)
Definition decimal (n : nat) : string :=
  DecimalString.NilEmpty.string_of_uint (Nat.to_uint n).

(** * Properties *)

(** ** Strings and slices *)

Lemma append_assoc (a b c : string) : (a +:+ b) +:+ c = a +:+ (b +:+ c).
Proof.
  induction a as [|ch a IH]; [reflexivity|].
  change (String ch ((a +:+ b) +:+ c) = String ch (a +:+ (b +:+ c))).
  now rewrite IH.
Qed.

Lemma append_empty_r (a : string) : a +:+ EmptyString = a.
Proof.
  induction a as [|ch a IH]; [reflexivity|].
  change (String ch (a +:+ EmptyString) = String ch a).
  now rewrite IH.
Qed.

Lemma index_in_range {A} (s : list A) (i : Z) (x : A) :
  0 <= i -> s !! Z.to_nat i = Some x -> index s i = Ret x.
Proof.
  intros Hi Hx. unfold index.
  destruct (Z.ltb_spec i 0) as [?|_]; [lia | now rewrite Hx].
Qed.

Lemma index_negative {A} (s : list A) (i : Z) :
  i < 0 -> index s i = Panic (IndexOutOfRange i (len s)).
Proof. intros Hi. unfold index. destruct (Z.ltb_spec i 0); [reflexivity | lia]. Qed.

(** ** [GetOnPosition] *)

Lemma GetOnPosition_available (tc : TweetCache) (pos : Z) (tweet : Tweet) :
  0 <= pos -> Tweets tc !! Z.to_nat pos = Some tweet ->
  GetOnPosition tc pos = Ret (tweet_and_author tweet, None).
Proof.
  intros Hpos Hlk. unfold GetOnPosition, len.
  pose proof (lookup_lt_Some _ _ _ Hlk) as Hlt.
  destruct (Z.eqb_spec (Z.of_nat (length (Tweets tc))) 0) as [?|_]; [lia|].
  destruct (Z.ltb_spec (Z.of_nat (length (Tweets tc)) - 1) pos) as [?|_]; [lia|].
  simpl. now rewrite (index_in_range _ _ _ Hpos Hlk).
Qed.

Lemma GetOnPosition_beyond (tc : TweetCache) (pos : Z) :
  len (Tweets tc) <= pos \/ Tweets tc = [] ->
  GetOnPosition tc pos = Ret (EmptyString, Some twit_not_available).
Proof.
  intros H. unfold GetOnPosition.
  destruct (Z.eqb_spec (len (Tweets tc)) 0) as [?|Hne]; [reflexivity|].
  destruct (Z.ltb_spec (len (Tweets tc) - 1) pos) as [?|Hge]; [reflexivity|].
  destruct H as [H|H]; [lia|]. rewrite H in Hne. now elim Hne.
Qed.

Lemma GetOnPosition_negative (tc : TweetCache) (pos : Z) :
  pos < 0 -> Tweets tc <> [] ->
  GetOnPosition tc pos = Panic (IndexOutOfRange pos (len (Tweets tc))).
Proof.
  intros Hneg Hne. unfold GetOnPosition.
  assert (0 < len (Tweets tc)).
  { unfold len. destruct (Tweets tc); [congruence | simpl; lia]. }
  destruct (Z.eqb_spec (len (Tweets tc)) 0) as [?|_]; [lia|].
  destruct (Z.ltb_spec (len (Tweets tc) - 1) pos) as [?|_]; [lia|].
  simpl. now rewrite index_negative.
Qed.

(** C3. For a non-negative position, [GetOnPosition] succeeds exactly when
    the position is below the number of cached tweets; it then returns the
    text and the author's name of the tweet at that position, and outside
    that range it fails with the "twit not available" error. *)
Theorem GetOnPosition_succeeds_iff_in_range (tc : TweetCache) (pos : Z) :
  0 <= pos ->
  (succeeds (GetOnPosition tc pos) <-> pos < len (Tweets tc)) /\
  (pos < len (Tweets tc) ->
     exists tweet, Tweets tc !! Z.to_nat pos = Some tweet /\
       GetOnPosition tc pos =
         Ret (Text tweet +:+ LF +:+ LF +:+ Name (Tweet_User tweet), None)) /\
  (~ pos < len (Tweets tc) ->
     GetOnPosition tc pos = Ret (EmptyString, Some twit_not_available)).
Proof.
  intros Hpos.
  assert (Hin : pos < len (Tweets tc) ->
     exists tweet, Tweets tc !! Z.to_nat pos = Some tweet /\
       GetOnPosition tc pos = Ret (tweet_and_author tweet, None)).
  { intros Hlt. unfold len in Hlt.
    destruct (lookup_lt_is_Some_2 (Tweets tc) (Z.to_nat pos)) as [tweet Htw]; [lia|].
    exists tweet. split; [assumption | now apply GetOnPosition_available]. }
  assert (Hout : ~ pos < len (Tweets tc) ->
     GetOnPosition tc pos = Ret (EmptyString, Some twit_not_available)).
  { intros Hge. apply GetOnPosition_beyond. left. lia. }
  split; [|split; assumption].
  split.
  - intros [s Hs]. destruct (Z.lt_ge_cases pos (len (Tweets tc))) as [?|Hge]; [assumption|].
    rewrite Hout in Hs by lia. discriminate Hs.
  - intros Hlt. destruct (Hin Hlt) as (tweet & _ & Heq). now exists (tweet_and_author tweet).
Qed.

Lemma GetOnPosition_succeeds_iff_in_range_witness :
  0 <= 1 /\
  ((succeeds (GetOnPosition cache_abc 1) <-> 1 < len (Tweets cache_abc)) /\
   (1 < len (Tweets cache_abc) ->
     exists tweet, Tweets cache_abc !! Z.to_nat 1 = Some tweet /\
       GetOnPosition cache_abc 1 =
         Ret (Text tweet +:+ LF +:+ LF +:+ Name (Tweet_User tweet), None)) /\
   (~ 1 < len (Tweets cache_abc) ->
     GetOnPosition cache_abc 1 = Ret (EmptyString, Some twit_not_available))).
Proof.
  split; [lia | apply (GetOnPosition_succeeds_iff_in_range cache_abc 1); lia].
Defined.

Example GetOnPosition_abc_1 :
  GetOnPosition cache_abc 1 = Ret ("second" +:+ LF +:+ LF +:+ "bob", None).
Proof. reflexivity. Qed.

Example GetOnPosition_abc_3 :
  GetOnPosition cache_abc 3 = Ret (EmptyString, Some twit_not_available).
Proof. reflexivity. Qed.

(** ** Rendering *)

Lemma rendered_item_entry (rh : RequestHandler) (tweet : Tweet) :
  timeline_entry rh (tweet_and_author tweet) = rendered_item rh tweet.
Proof.
  unfold timeline_entry, tweet_and_author, rendered_item.
  now rewrite !append_assoc.
Qed.

Lemma formatTimeline_loop_spec (rh : RequestHandler) (n : nat) :
  forall (k : nat) (acc : string),
    formatTimeline_loop rh n (Z.of_nat k) acc =
    Ret (acc +:+ concat_all (map (rendered_item rh)
                               (take n (drop k (Tweets (RH_TweetCache rh)))))).
Proof.
  induction n as [|n IH]; intros k acc.
  - cbn [formatTimeline_loop]. rewrite take_0. cbn. now rewrite append_empty_r.
  - cbn [formatTimeline_loop].
    replace (Z.of_nat k + 1) with (Z.of_nat (S k)) by lia.
    destruct (Tweets (RH_TweetCache rh) !! k) as [tweet|] eqn:Hk.
    + rewrite (GetOnPosition_available _ _ tweet) by (rewrite ?Nat2Z.id; first [lia | assumption]).
      cbn [bind]. rewrite IH, (drop_S _ _ _ Hk). cbn [take map concat_all foldr].
      now rewrite rendered_item_entry, append_assoc.
    + apply lookup_ge_None in Hk.
      rewrite GetOnPosition_beyond by (left; unfold len; lia).
      cbn [bind]. rewrite IH.
      rewrite !drop_ge by lia. now rewrite !take_nil.
Qed.

Lemma formatTimeline_spec (rh : RequestHandler) :
  formatTimeline rh =
  Ret (concat_all (map (rendered_item rh) (take 10 (Tweets (RH_TweetCache rh))))).
Proof.
  unfold formatTimeline. change 0 with (Z.of_nat 0).
  rewrite (formatTimeline_loop_spec rh 10 0 EmptyString).
  now rewrite drop_0.
Qed.

(** C5. With [n] tweets in the cache the timeline is the first [min n 10]
    tweets, each rendered and followed by the delimiter, and nothing else:
    no entry for a position the cache does not hold, never more than ten
    items, and the rendering returns (it does not panic) for every cache. *)
Theorem formatTimeline_first_ten (fs : gmap string string) (rh : RequestHandler) :
  let tweets := Tweets (RH_TweetCache rh) in
  formatTimeline rh = Ret (concat_all (map (rendered_item rh) (take 10 tweets))) /\
  length (map (rendered_item rh) (take 10 tweets)) = Nat.min (length tweets) 10 /\
  showTimeline fs rh =
    Ret (success_page (getHeader fs rh +:+
                       concat_all (map (rendered_item rh) (take 10 tweets)) +:+
                       getFooter rh)).
Proof.
  intros tweets.
  split; [apply formatTimeline_spec|]. split.
  - rewrite length_map, length_take. lia.
  - unfold showTimeline. rewrite formatTimeline_spec. reflexivity.
Qed.

Example formatTimeline_three_items :
  formatTimeline handler_abc =
  Ret (LF +:+ LF +:+ "first" +:+ LF +:+ LF +:+ "ann" +:+ LF +:+ LF +:+ "-----" +:+
       LF +:+ LF +:+ "second" +:+ LF +:+ LF +:+ "bob" +:+ LF +:+ LF +:+ "-----" +:+
       LF +:+ LF +:+ "third" +:+ LF +:+ LF +:+ "cy" +:+ LF +:+ LF +:+ "-----").
Proof. reflexivity. Qed.

Lemma formatTweet_unavailable (rh : RequestHandler) (pos : Z) :
  Tweets (RH_TweetCache rh) = [] \/ len (Tweets (RH_TweetCache rh)) <= pos ->
  formatTweet rh pos = Ret EmptyString.
Proof.
  intros H. unfold formatTweet.
  rewrite GetOnPosition_beyond by tauto. reflexivity.
Qed.

(** C7. When the cache is empty, or the position asked for lies beyond the
    cached tweets, the single-tweet page is still a success response (status
    20) whose body is the header directly followed by the footer; this is
    what a request for [/] gets from an empty cache. *)
Theorem showTweet_unavailable_is_header_footer
    (fs : gmap string string) (pick : nat) (rh : RequestHandler) (pos : Z) (r : Request) :
  Tweets (RH_TweetCache rh) = [] \/ len (Tweets (RH_TweetCache rh)) <= pos ->
  showTweet fs rh pos = Ret (success_page (getHeader fs rh +:+ getFooter rh)) /\
  (Path (Request_URL r) = "/" -> Tweets (RH_TweetCache rh) = [] ->
   Handle fs pick rh r = Ret (success_page (getHeader fs rh +:+ getFooter rh))).
Proof.
  intros H. split.
  - unfold showTweet. rewrite formatTweet_unavailable by assumption. reflexivity.
  - intros Hpath Hempty. unfold Handle. rewrite Hpath. cbn [String.eqb Ascii.eqb].
    change (showTweet fs rh 0 = Ret (success_page (getHeader fs rh +:+ getFooter rh))).
    unfold showTweet. rewrite formatTweet_unavailable by tauto. reflexivity.
Qed.

Lemma showTweet_unavailable_is_header_footer_witness :
  (Tweets (RH_TweetCache handler_empty) = [] \/
   len (Tweets (RH_TweetCache handler_empty)) <= 0) /\
  showTweet ∅ handler_empty 0 =
    Ret (success_page (getHeader ∅ handler_empty +:+ getFooter handler_empty)) /\
  (Path (Request_URL (request "/" ∅)) = "/" -> Tweets (RH_TweetCache handler_empty) = [] ->
   Handle ∅ 0 handler_empty (request "/" ∅) =
     Ret (success_page (getHeader ∅ handler_empty +:+ getFooter handler_empty))).
Proof.
  split; [left; reflexivity|].
  apply (showTweet_unavailable_is_header_footer ∅ 0%nat handler_empty 0 (request "/" ∅)).
  left; reflexivity.
Defined.

Example Handle_root_empty_cache :
  Handle ∅ 0 handler_empty (request "/" ∅) =
  Ret (success_page (menu +:+ getFooter handler_empty)).
Proof. reflexivity. Qed.

(** ** The header and the logo file *)

Lemma getHeader_absent (fs : gmap string string) (rh : RequestHandler) :
  fs !! AsciiLogoFile (Config_UI (RH_Config rh)) = None ->
  getHeader fs rh = menu.
Proof. intros Habs. unfold getHeader, os_Open. now rewrite Habs. Qed.

Lemma getHeader_present (fs : gmap string string) (rh : RequestHandler) (logo : string) :
  fs !! AsciiLogoFile (Config_UI (RH_Config rh)) = Some logo ->
  getHeader fs rh = logo +:+ menu.
Proof. intros Hlogo. unfold getHeader, os_Open. now rewrite Hlogo. Qed.

Lemma Handle_depends_on_header (fs fs' : gmap string string) (pick : nat)
    (rh : RequestHandler) (r : Request) :
  getHeader fs rh = getHeader fs' rh ->
  Handle fs pick rh r = Handle fs' pick rh r.
Proof.
  intros Hhdr. unfold Handle, showTweet, showTimeline, wrapBody.
  now rewrite Hhdr.
Qed.

(** C9. When the logo file does not exist, the header is the menu of the
    three links with an empty logo in front; every page body is then the
    menu, the content and the footer; and every request is answered exactly
    as it would be were the logo file there and empty, so the missing file
    never shows in a response. *)
Theorem getHeader_missing_logo_is_empty
    (fs : gmap string string) (pick : nat) (rh : RequestHandler) (r : Request) :
  fs !! AsciiLogoFile (Config_UI (RH_Config rh)) = None ->
  getHeader fs rh =
    EmptyString +:+ LF +:+ LF +:+
    "=> / Last tweet" +:+ LF +:+
    "=> /timeline Timeline" +:+ LF +:+
    "=> /select_tweet Tweet selector" +:+ LF +:+ LF /\
  (forall body, wrapBody fs rh body = menu +:+ body +:+ getFooter rh) /\
  Handle fs pick rh r =
    Handle (<[AsciiLogoFile (Config_UI (RH_Config rh)) := EmptyString]> fs) pick rh r.
Proof.
  intros Habs. pose proof (getHeader_absent fs rh Habs) as Hhdr.
  split; [exact Hhdr|]. split.
  - intros body. unfold wrapBody. now rewrite Hhdr.
  - apply Handle_depends_on_header. rewrite Hhdr.
    now rewrite (getHeader_present _ rh EmptyString) by apply lookup_insert_eq.
Qed.

Lemma getHeader_missing_logo_is_empty_witness :
  (∅ : gmap string string) !! AsciiLogoFile (Config_UI (RH_Config handler_abc)) = None /\
  getHeader ∅ handler_abc =
    EmptyString +:+ LF +:+ LF +:+
    "=> / Last tweet" +:+ LF +:+
    "=> /timeline Timeline" +:+ LF +:+
    "=> /select_tweet Tweet selector" +:+ LF +:+ LF /\
  (forall body, wrapBody ∅ handler_abc body = menu +:+ body +:+ getFooter handler_abc) /\
  Handle ∅ 0 handler_abc (request "/timeline" ∅) =
    Handle (<[AsciiLogoFile (Config_UI (RH_Config handler_abc)) := EmptyString]> ∅)
           0 handler_abc (request "/timeline" ∅).
Proof.
  split; [reflexivity|].
  apply (getHeader_missing_logo_is_empty ∅ 0%nat handler_abc (request "/timeline" ∅)).
  reflexivity.
Defined.

(** ** Routing *)

Section Routing.

Variable fs : gmap string string.
Variable pick : nat.
Variable rh : RequestHandler.
Variable r : Request.

Let path := Path (Request_URL r).
Let params := Query (Request_URL r).

Lemma Handle_root : path = "/" -> Handle fs pick rh r = showTweet fs rh 0.
Proof. unfold path, Handle. now intros ->. Qed.

Lemma Handle_timeline : path = "/timeline" -> Handle fs pick rh r = showTimeline fs rh.
Proof. unfold path, Handle. now intros ->. Qed.

Lemma Handle_select_no_query :
  path = "/select_tweet" -> size params = 0%nat ->
  Handle fs pick rh r = Ret input_prompt.
Proof. unfold path, params, Handle. now intros -> ->. Qed.

Lemma Handle_select_query :
  path = "/select_tweet" -> size params <> 0%nat ->
  Handle fs pick rh r =
    match strconv_Atoi (getFirstKeyFromURL pick (Request_URL r)) with
    | (_, Some _) => Ret parse_failure
    | (offset, None) => showTweet fs rh offset
    end.
Proof.
  unfold path, params, Handle. intros -> Hsize.
  cbn [String.eqb Ascii.eqb andb].
  destruct (Z.eqb_spec (Z.of_nat (size (Query (Request_URL r)))) 0) as [?|_]; [lia|].
  now destruct (strconv_Atoi _) as [offset [err|]].
Qed.

Lemma Handle_elsewhere :
  path <> "/" -> path <> "/timeline" -> path <> "/select_tweet" ->
  Handle fs pick rh r = Ret unknown_location.
Proof.
  unfold path, Handle. intros H1 H2 H3.
  apply String.eqb_neq in H1, H2, H3. now rewrite H1, H2, H3.
Qed.

Lemma showTweet_in_range (offset : Z) :
  0 <= offset \/ Tweets (RH_TweetCache rh) = [] ->
  exists content, showTweet fs rh offset = Ret (success_page (wrapBody fs rh content)).
Proof.
  intros Hok. unfold showTweet, formatTweet.
  destruct (Z.lt_ge_cases offset (len (Tweets (RH_TweetCache rh)))) as [Hlt|Hge].
  - destruct Hok as [Hpos|Hempty].
    + unfold len in Hlt.
      destruct (lookup_lt_is_Some_2 (Tweets (RH_TweetCache rh)) (Z.to_nat offset))
        as [tweet Htw]; [lia|].
      rewrite (GetOnPosition_available _ _ tweet Hpos Htw). now eexists.
    + rewrite GetOnPosition_beyond by tauto. now eexists.
  - rewrite GetOnPosition_beyond by tauto. now eexists.
Qed.

Lemma showTweet_negative (offset : Z) :
  offset < 0 -> Tweets (RH_TweetCache rh) <> [] ->
  showTweet fs rh offset =
    Panic (IndexOutOfRange offset (len (Tweets (RH_TweetCache rh)))).
Proof.
  intros Hneg Hne. unfold showTweet, formatTweet.
  now rewrite GetOnPosition_negative.
Qed.

Lemma showTimeline_returns :
  exists content, showTimeline fs rh = Ret (success_page (wrapBody fs rh content)).
Proof.
  unfold showTimeline. rewrite formatTimeline_spec. now eexists.
Qed.

End Routing.

Lemma documented_status (fs : gmap string string) (rh : RequestHandler) (resp : Response) :
  documented fs rh resp ->
  (Status resp = 20 /\ Meta resp = "text/gemini" /\ Body resp <> None) \/
  (Status resp = 10 /\ Meta resp = "Get tweet offset. f.e. 5" /\ Body resp = None) \/
  (Status resp = 42 /\ Meta resp = "Failed to parse input. Please use numbers." /\
   Body resp = None) \/
  (Status resp = 51 /\ Meta resp = "Unknown location" /\ Body resp = None).
Proof. destruct 1; cbn; intuition congruence. Qed.

Lemma showTweet_outcome (fs : gmap string string) (rh : RequestHandler) (offset : Z) :
  (exists content, showTweet fs rh offset = Ret (success_page (wrapBody fs rh content))) \/
  (offset < 0 /\ Tweets (RH_TweetCache rh) <> [] /\
   showTweet fs rh offset =
     Panic (IndexOutOfRange offset (len (Tweets (RH_TweetCache rh))))).
Proof.
  destruct (Z.lt_ge_cases offset 0) as [Hneg|Hpos].
  - destruct (Tweets (RH_TweetCache rh)) as [|tweet rest] eqn:Htw.
    + left. apply showTweet_in_range. now right.
    + right. split; [assumption|]. split; [discriminate|].
      rewrite <- Htw. apply showTweet_negative; [assumption | now rewrite Htw].
  - left. apply showTweet_in_range. now left.
Qed.

(** Whenever [Handle] returns, the response is one of the documented ones. *)
Lemma Handle_returns_documented (fs : gmap string string) (pick : nat)
    (rh : RequestHandler) (r : Request) (resp : Response) :
  Handle fs pick rh r = Ret resp -> documented fs rh resp.
Proof.
  destruct (String.eqb_spec (Path (Request_URL r)) "/") as [H1|H1].
  { rewrite Handle_root by assumption.
    destruct (showTweet_outcome fs rh 0) as [[content ->]|(? & _)]; [|lia].
    intros [= <-]. constructor. }
  destruct (String.eqb_spec (Path (Request_URL r)) "/timeline") as [H2|H2].
  { rewrite Handle_timeline by assumption.
    destruct (showTimeline_returns fs rh) as [content ->].
    intros [= <-]. constructor. }
  destruct (String.eqb_spec (Path (Request_URL r)) "/select_tweet") as [H3|H3].
  - destruct (Nat.eq_dec (size (Query (Request_URL r))) 0%nat) as [Hsz|Hsz].
    + rewrite Handle_select_no_query by assumption. intros [= <-]. constructor.
    + rewrite Handle_select_query by assumption.
      destruct (strconv_Atoi _) as [offset [err|]].
      * intros [= <-]. constructor.
      * destruct (showTweet_outcome fs rh offset) as [[content ->]|(_ & _ & ->)].
        -- intros [= <-]. constructor.
        -- discriminate.
  - rewrite Handle_elsewhere by assumption. intros [= <-]. constructor.
Qed.

(** [Handle] panics in one situation only: [/select_tweet] with a key that
    [strconv.Atoi] reads as a negative number, while the cache holds tweets. *)
Lemma Handle_panics_iff (fs : gmap string string) (pick : nat)
    (rh : RequestHandler) (r : Request) (p : runtime_error) :
  Handle fs pick rh r = Panic p <->
  Path (Request_URL r) = "/select_tweet" /\
  size (Query (Request_URL r)) <> 0%nat /\
  exists offset,
    strconv_Atoi (getFirstKeyFromURL pick (Request_URL r)) = (offset, None) /\
    offset < 0 /\ Tweets (RH_TweetCache rh) <> [] /\
    p = IndexOutOfRange offset (len (Tweets (RH_TweetCache rh))).
Proof.
  split.
  - destruct (String.eqb_spec (Path (Request_URL r)) "/") as [H1|H1].
    { rewrite Handle_root by assumption.
      destruct (showTweet_outcome fs rh 0) as [[content ->]|(? & _)]; [discriminate|lia]. }
    destruct (String.eqb_spec (Path (Request_URL r)) "/timeline") as [H2|H2].
    { rewrite Handle_timeline by assumption.
      destruct (showTimeline_returns fs rh) as [content ->]. discriminate. }
    destruct (String.eqb_spec (Path (Request_URL r)) "/select_tweet") as [H3|H3].
    + destruct (Nat.eq_dec (size (Query (Request_URL r))) 0%nat) as [Hsz|Hsz].
      * rewrite Handle_select_no_query by assumption. discriminate.
      * rewrite Handle_select_query by assumption.
        destruct (strconv_Atoi _) as [offset [err|]] eqn:Hatoi; [discriminate|].
        destruct (showTweet_outcome fs rh offset) as [[content ->]|(Hneg & Hne & ->)];
          [discriminate|].
        intros [= <-]. repeat split; try assumption. now exists offset.
    + rewrite Handle_elsewhere by assumption. discriminate.
  - intros (Hpath & Hsz & offset & Hatoi & Hneg & Hne & ->).
    rewrite Handle_select_query, Hatoi by assumption.
    now apply showTweet_negative.
Qed.

Lemma Handle_returns_unless_negative (fs : gmap string string) (pick : nat)
    (rh : RequestHandler) (r : Request) :
  0 <= fst (strconv_Atoi (getFirstKeyFromURL pick (Request_URL r))) \/
  Tweets (RH_TweetCache rh) = [] ->
  returns (Handle fs pick rh r).
Proof.
  intros Hok. destruct (Handle fs pick rh r) as [resp|p] eqn:HH; [now exists resp|].
  apply Handle_panics_iff in HH as (_ & _ & offset & Hatoi & Hneg & Hne & _).
  rewrite Hatoi in Hok. cbn in Hok. destruct Hok; [lia | contradiction].
Qed.

(** A single query key: whatever order the map is visited in, it comes first. *)
Lemma getFirstKeyFromURL_singleton (pick : nat) (path key : string) (v : list string) :
  getFirstKeyFromURL pick {| Path := path; Query := {[ key := v ]} |} = key.
Proof.
  unfold getFirstKeyFromURL. cbn [Query]. rewrite map_to_list_singleton.
  cbn [length]. now rewrite Nat.mod_1_r.
Qed.

Lemma Handle_select_parsed (fs : gmap string string) (pick : nat) (rh : RequestHandler)
    (key : string) (v : list string) (n : Z) :
  strconv_Atoi key = (n, None) ->
  Handle fs pick rh (request "/select_tweet" {[ key := v ]}) = showTweet fs rh n.
Proof.
  intros Hatoi. rewrite Handle_select_query.
  - cbn [request Request_URL]. now rewrite getFirstKeyFromURL_singleton, Hatoi.
  - reflexivity.
  - cbn [request Request_URL Query]. rewrite map_size_singleton. discriminate.
Qed.

Lemma Handle_select_unparsed (fs : gmap string string) (pick : nat) (rh : RequestHandler)
    (key : string) (v : list string) (n : Z) (err : error) :
  strconv_Atoi key = (n, Some err) ->
  Handle fs pick rh (request "/select_tweet" {[ key := v ]}) = Ret parse_failure.
Proof.
  intros Hatoi. rewrite Handle_select_query.
  - cbn [request Request_URL]. now rewrite getFirstKeyFromURL_singleton, Hatoi.
  - reflexivity.
  - cbn [request Request_URL Query]. rewrite map_size_singleton. discriminate.
Qed.

Example Handle_select_5 :
  Handle ∅ 0 handler_abc (request "/select_tweet" {[ "5" := [EmptyString] ]}) =
  Ret (success_page (menu +:+ getFooter handler_abc)).
Proof. reflexivity. Qed.

Example Handle_select_1 :
  Handle ∅ 0 handler_abc (request "/select_tweet" {[ "1" := [EmptyString] ]}) =
  Ret (success_page (menu +:+ LF +:+ LF +:+ "second" +:+ LF +:+ LF +:+ "bob" +:+
                     getFooter handler_abc)).
Proof. reflexivity. Qed.

Example Handle_select_abc :
  Handle ∅ 0 handler_abc (request "/select_tweet" {[ "abc" := [EmptyString] ]}) =
  Ret parse_failure.
Proof. reflexivity. Qed.

Example Handle_select_prompt :
  Handle ∅ 0 handler_abc (request "/select_tweet" ∅) = Ret input_prompt.
Proof. reflexivity. Qed.

Example Handle_other_path :
  Handle ∅ 0 handler_abc (request "/about" ∅) = Ret unknown_location.
Proof. reflexivity. Qed.

(** ** Negative offsets

    [strconv.Atoi] reads [-1] as a number, [Handle] passes it on, and the
    bounds test of [GetOnPosition] only looks at the upper end. *)

(** C1. The request [/select_tweet?-1], served while the cache holds one
    tweet, makes [Handle] panic with an index out of range instead of
    returning a response. *)
Theorem Handle_negative_offset_panics :
  Handle ∅ 0 handler_one select_minus_1 = Panic (IndexOutOfRange (-1) 1).
Proof. vm_compute. reflexivity. Qed.

(** C2. The key [-1] is not a non-negative integer, yet [/select_tweet?-1]
    is not answered with the parse failure: an empty cache gives a success
    page with nothing between header and footer, a cache with tweets gives
    no response at all. *)
Theorem Handle_negative_key_is_not_rejected :
  strconv_Atoi "-1" = (-1, None) /\
  Handle ∅ 0 handler_empty select_minus_1 =
    Ret (success_page (menu +:+ getFooter handler_empty)) /\
  Handle ∅ 0 handler_abc select_minus_1 <> Ret parse_failure.
Proof. repeat split. vm_compute. discriminate. Qed.

(** C10. For [/select_tweet?-7] the key parses ([strconv.Atoi] gives [-7]
    and no error), but with tweets in the cache [Handle] returns no
    response, hence no status 20. *)
Theorem Handle_parsed_negative_offset_gives_no_status :
  strconv_Atoi (getFirstKeyFromURL 0 (Request_URL select_minus_7)) = (-7, None) /\
  ~ returns (Handle ∅ 0 handler_abc select_minus_7).
Proof.
  split; [reflexivity|]. intros [resp Hresp]. vm_compute in Hresp. discriminate Hresp.
Qed.

(** ** The refresh loop *)

Lemma Refresher_iteration_result (e : Env) (w : World) :
  iteration_result e w (Refresher_iteration e w).
Proof.
  unfold Refresher_iteration.
  destruct (time_Since _ _ <? _) eqn:Hdue.
  - apply iter_wait. unfold due. now rewrite Hdue.
  - assert (Hd : due e w = true) by (unfold due; now rewrite Hdue).
    unfold getTweets. destruct (UserTimeline e) as [tweets [err|]] eqn:Hut.
    + now apply (iter_error e w tweets err).
    + destruct (Z.ltb_spec (len tweets) (len (Tweets (cache w)))).
      * now apply (iter_short e w tweets).
      * now apply (iter_commit e w tweets).
Qed.

Lemma Refresher_cons (e : Env) (es : list Env) (w : World) :
  Refresher (e :: es) w =
  (fst (Refresher es (fst (Refresher_iteration e w))),
   snd (Refresher_iteration e w) ++ snd (Refresher es (fst (Refresher_iteration e w)))).
Proof.
  cbn [Refresher]. destruct (Refresher_iteration e w) as [w1 tr1].
  cbn [fst snd]. now destruct (Refresher es w1) as [w2 tr2].
Qed.

Lemma Refresher_app (es1 es2 : list Env) (w : World) :
  Refresher (es1 ++ es2) w =
  (fst (Refresher es2 (fst (Refresher es1 w))),
   snd (Refresher es1 w) ++ snd (Refresher es2 (fst (Refresher es1 w)))).
Proof.
  revert w. induction es1 as [|e es1 IH]; intros w.
  - cbn. now destruct (Refresher es2 w).
  - rewrite <- app_comm_cons, !Refresher_cons, IH. cbn [fst snd].
    now rewrite app_assoc.
Qed.

Lemma Refresher_commits_sorted (es : list Env) :
  forall w, Sorted no_shorter (Tweets (cache w) :: commits (snd (Refresher es w))).
Proof.
  induction es as [|e es IH]; intros w.
  - cbn. repeat constructor.
  - rewrite Refresher_cons. cbn [snd]. unfold commits. rewrite omap_app.
    fold (commits (snd (Refresher es (fst (Refresher_iteration e w))))).
    specialize (IH (fst (Refresher_iteration e w))).
    destruct (Refresher_iteration_result e w); cbn [fst snd omap app cache Tweets] in *;
      try exact IH.
    constructor; [exact IH|]. constructor. unfold no_shorter, len in *. lia.
Qed.

Lemma Refresher_states_sorted (es : list Env) :
  forall w, Sorted no_shorter (Tweets (cache w) :: map Tweets (Refresher_states es w)).
Proof.
  induction es as [|e es IH]; intros w.
  - cbn. repeat constructor.
  - cbn [Refresher_states map]. constructor; [apply IH|]. constructor.
    destruct (Refresher_iteration_result e w); cbn [fst cache Tweets];
      unfold no_shorter, len in *; lia.
Qed.

Lemma Refresher_iteration_short (e : Env) (w : World) (tweets : list Tweet) :
  UserTimeline e = (tweets, None) -> len tweets < len (Tweets (cache w)) ->
  cache (fst (Refresher_iteration e w)) = cache w /\
  commits (snd (Refresher_iteration e w)) = [].
Proof.
  intros Hut Hshort.
  destruct (Refresher_iteration_result e w) as [| | | fetched _ Hut' Hlen];
    cbn [fst snd cache]; try (split; reflexivity).
  rewrite Hut in Hut'. injection Hut' as <-. lia.
Qed.

(** C4. Over any number of iterations and any answers of the upstream API,
    the snapshots committed by the loop (starting from the one current at
    the outset) never get shorter from one to the next, and neither does
    the cache from one iteration to the next; and an answer with fewer
    tweets than the cache holds leaves the cache, [LastRefresh] included,
    exactly as it was. *)
Theorem Refresher_snapshots_never_shrink
    (es : list Env) (w : World) (e : Env) (tweets : list Tweet) :
  Sorted no_shorter (Tweets (cache w) :: commits (snd (Refresher es w))) /\
  Sorted no_shorter (Tweets (cache w) :: map Tweets (Refresher_states es w)) /\
  (UserTimeline e = (tweets, None) ->
   len tweets < len (Tweets (cache (fst (Refresher es w)))) ->
   cache (fst (Refresher (es ++ [e]) w)) = cache (fst (Refresher es w)) /\
   commits (snd (Refresher (es ++ [e]) w)) = commits (snd (Refresher es w))).
Proof.
  split; [apply Refresher_commits_sorted|].
  split; [apply Refresher_states_sorted|].
  intros Hut Hshort. rewrite Refresher_app. cbn [fst snd].
  rewrite Refresher_cons. cbn [Refresher fst snd]. rewrite app_nil_r.
  destruct (Refresher_iteration_short e _ tweets Hut Hshort) as [Hcache Hcommits].
  split; [exact Hcache|].
  unfold commits in *. now rewrite omap_app, Hcommits, app_nil_r.
Qed.

Lemma Refresher_snapshots_never_shrink_witness :
  UserTimeline env_short = ([tweet_c], None) /\
  len [tweet_c] < len (Tweets (cache (fst (Refresher [env_abc] world_start)))) /\
  cache (fst (Refresher ([env_abc] ++ [env_short]) world_start)) =
    cache (fst (Refresher [env_abc] world_start)) /\
  commits (snd (Refresher ([env_abc] ++ [env_short]) world_start)) =
    commits (snd (Refresher [env_abc] world_start)).
Proof.
  split; [reflexivity|]. split; [vm_compute; reflexivity|].
  apply (Refresher_snapshots_never_shrink [env_abc] world_start env_short [tweet_c]).
  - reflexivity.
  - vm_compute. reflexivity.
Defined.

Example Refresher_commit_then_short :
  Refresher [env_abc; env_short] world_start =
  ({| cache := {| Tweets := [tweet_a; tweet_b; tweet_c];
                  LastRefresh := 1700000002 * second |};
      clock := 1700000904 * second |},
   [EvFetch (1700000000 * second) (1700000002 * second);
    EvCommit [tweet_a; tweet_b; tweet_c] (1700000002 * second);
    EvFetch (1700000902 * second) (1700000904 * second)]).
Proof. vm_compute. reflexivity. Qed.

(** *** Time *)

Lemma Refresher_iteration_clock (e : Env) (w : World) :
  clock w <= clock (fst (Refresher_iteration e w)) /\
  Forall (fun t => clock w <= t) (fetch_calls (snd (Refresher_iteration e w))).
Proof.
  pose proof (N2Z.is_nonneg (elapsed e)). pose proof (N2Z.is_nonneg (fetch_took e)).
  pose proof (N2Z.is_nonneg (overslept e)).
  assert (0 < Minute * 5) by reflexivity.
  destruct (Refresher_iteration_result e w); cbn [fst snd clock fetch_calls omap];
    (split; [lia | repeat constructor; lia]).
Qed.

Lemma Refresher_fetch_calls_later (es : list Env) :
  forall w, Forall (fun t => clock w <= t) (fetch_calls (snd (Refresher es w))).
Proof.
  induction es as [|e es IH]; intros w; [constructor|].
  rewrite Refresher_cons. cbn [snd]. unfold fetch_calls. rewrite omap_app.
  destruct (Refresher_iteration_clock e w) as [Hclock Hcalls].
  apply Forall_app. split; [exact Hcalls|].
  eapply Forall_impl; [apply IH|]. cbn. intros t Ht. lia.
Qed.

(** C6. When the fetch of an iteration fails, the iteration leaves the
    cache exactly as it was (snapshot and [LastRefresh]), commits nothing,
    sleeps five minutes, and every fetch the loop makes afterwards starts at
    least five minutes after the failed one returned. *)
Theorem Refresher_fetch_error_cools_down
    (e : Env) (w : World) (es : list Env) (tweets : list Tweet) (err : error) :
  due e w = true ->
  UserTimeline e = (tweets, Some err) ->
  let called := clock w + Z.of_N (elapsed e) in
  let failed := called + Z.of_N (fetch_took e) in
  let w1 := fst (Refresher_iteration e w) in
  cache w1 = cache w /\
  snd (Refresher_iteration e w) = [EvFetch called failed; EvSleep (Minute * 5)] /\
  Forall (fun t => failed + Minute * 5 <= t) (fetch_calls (snd (Refresher es w1))).
Proof.
  intros Hdue Hut called failed w1.
  assert (Hiter : Refresher_iteration e w =
    ({| cache := cache w; clock := failed + Minute * 5 + Z.of_N (overslept e) |},
     [EvFetch called failed; EvSleep (Minute * 5)])).
  { destruct (Refresher_iteration_result e w) as [Hw| | ? _ Hut' | ? _ Hut'];
      try congruence. reflexivity. }
  subst w1. rewrite Hiter. cbn [fst snd cache].
  split; [reflexivity|]. split; [reflexivity|].
  eapply Forall_impl; [apply Refresher_fetch_calls_later|].
  cbn. intros t Ht. pose proof (N2Z.is_nonneg (overslept e)). lia.
Qed.

Lemma Refresher_fetch_error_cools_down_witness :
  due env_error world_abc = true /\
  UserTimeline env_error = ([], Some (UpstreamError "timeout")) /\
  cache (fst (Refresher_iteration env_error world_abc)) = cache world_abc /\
  snd (Refresher_iteration env_error world_abc) =
    [EvFetch (1700000902 * second) (1700000904 * second); EvSleep (Minute * 5)] /\
  Forall (fun t => 1700000904 * second + Minute * 5 <= t)
    (fetch_calls (snd (Refresher [env_spin; env_abc]
                         (fst (Refresher_iteration env_error world_abc))))).
Proof.
  split; [vm_compute; reflexivity|]. split; [reflexivity|].
  apply (Refresher_fetch_error_cools_down env_error world_abc [env_spin; env_abc]
           [] (UpstreamError "timeout")).
  - vm_compute. reflexivity.
  - reflexivity.
Defined.

Example Refresher_error_then_retry :
  snd (Refresher [env_error; env_spin] world_abc) =
  [EvFetch (1700000902 * second) (1700000904 * second); EvSleep (Minute * 5);
   EvFetch (1700001204 * second + 7) (1700001206 * second + 7);
   EvCommit [tweet_a; tweet_b; tweet_c] (1700001206 * second + 7)].
Proof. vm_compute. reflexivity. Qed.

(** C8 (as the specification words it) fails: here is an iteration that
    falls inside the fifteen minutes, fetches nothing and yet does not
    sleep; a thousand such iterations can go by without the clock moving. *)
Lemma Refresher_waits_without_sleeping :
  due env_spin world_abc = false /\
  fetch_calls (snd (Refresher_iteration env_spin world_abc)) = [] /\
  sleeps (snd (Refresher_iteration env_spin world_abc)) = [] /\
  Refresher (replicate 1000 env_spin) world_abc = (world_abc, []).
Proof. repeat split; vm_compute; reflexivity. Qed.

(** C8. An iteration that finds less than fifteen minutes gone since
    [LastRefresh] fetches nothing, commits nothing and leaves the cache as
    it was; it does not sleep either: it goes straight back to the interval
    check, having taken only the time the check itself took. *)
Theorem Refresher_waiting_iteration_spins (e : Env) (w : World) :
  due e w = false ->
  Refresher_iteration e w =
    ({| cache := cache w; clock := clock w + Z.of_N (elapsed e) |}, []) /\
  fetch_calls (snd (Refresher_iteration e w)) = [] /\
  sleeps (snd (Refresher_iteration e w)) = [] /\
  commits (snd (Refresher_iteration e w)) = [].
Proof.
  intros Hwait.
  assert (Hiter : Refresher_iteration e w =
    ({| cache := cache w; clock := clock w + Z.of_N (elapsed e) |}, [])).
  { destruct (Refresher_iteration_result e w); congruence. }
  rewrite Hiter. repeat split.
Qed.

Lemma Refresher_waiting_iteration_spins_witness :
  due env_spin world_abc = false /\
  Refresher_iteration env_spin world_abc =
    ({| cache := cache world_abc; clock := clock world_abc + Z.of_N (elapsed env_spin) |}, []) /\
  fetch_calls (snd (Refresher_iteration env_spin world_abc)) = [] /\
  sleeps (snd (Refresher_iteration env_spin world_abc)) = [] /\
  commits (snd (Refresher_iteration env_spin world_abc)) = [].
Proof.
  split; [vm_compute; reflexivity|].
  apply (Refresher_waiting_iteration_spins env_spin world_abc).
  vm_compute. reflexivity.
Defined.

(** * Further properties of the refresh loop *)

Lemma time_Since_interval (now t : Z) :
  (time_Since now t <? Minute * 15) = (now - t <? Minute * 15).
Proof.
  unfold time_Since, time_Sub.
  change (Minute * 15) with 900000000000.
  change minDuration with (-9223372036854775808).
  change maxDuration with 9223372036854775807.
  destruct (Z.ltb_spec (now - t) (-9223372036854775808));
    [|destruct (Z.ltb_spec 9223372036854775807 (now - t))];
    destruct (Z.ltb_spec (now - t) 900000000000); try lia;
    match goal with |- (?a <? ?b) = _ => destruct (Z.ltb_spec a b) end; lia.
Qed.

Lemma due_spec (e : Env) (w : World) :
  due e w = true <->
  Minute * 15 <= clock w + Z.of_N (elapsed e) - LastRefresh (cache w).
Proof.
  unfold due. rewrite time_Since_interval.
  destruct (Z.ltb_spec (clock w + Z.of_N (elapsed e) - LastRefresh (cache w)) (Minute * 15));
    cbn; split; intros; try lia; congruence.
Qed.

Lemma due_false_spec (e : Env) (w : World) :
  due e w = false <->
  clock w + Z.of_N (elapsed e) - LastRefresh (cache w) < Minute * 15.
Proof.
  rewrite <- Z.nle_gt, <- due_spec. destruct (due e w); split; congruence.
Qed.

(** X1. An iteration calls [getTweets] exactly when at least fifteen minutes
    lie between [LastRefresh] and the moment of the interval check, however
    far apart the two are (the saturation of [time.Duration] does not
    disturb the test); the call, if any, is the only one of the iteration. *)
Theorem Refresher_fetches_iff_interval_elapsed (e : Env) (w : World) :
  let now := clock w + Z.of_N (elapsed e) in
  (fetch_calls (snd (Refresher_iteration e w)) = [now] <->
   Minute * 15 <= now - LastRefresh (cache w)) /\
  (fetch_calls (snd (Refresher_iteration e w)) = [] <->
   now - LastRefresh (cache w) < Minute * 15).
Proof.
  intros now. subst now.
  pose proof (due_spec e w) as Hd. pose proof (due_false_spec e w) as Hf.
  destruct (Refresher_iteration_result e w)
    as [Hw|tw err Hdue Hut|tw Hdue Hut Hlen|tw Hdue Hut Hlen];
    cbn [snd fetch_calls omap]; (split; split; intros Hx;
      try discriminate; try reflexivity; try (now apply Hd); try (now apply Hf));
    first [apply Hd in Hx | apply Hf in Hx]; congruence.
Qed.

(** X2. The first refresh: with the cache as [main] creates it and a clock
    at least fifteen minutes past the zero time, the iteration fetches, and
    an answer without error becomes the snapshot whatever its length, with
    [LastRefresh] set to the moment the call returned. *)
Theorem Refresher_first_answer_is_committed (e : Env) (w : World) (tweets : list Tweet) :
  cache w = TweetCache_zero ->
  Minute * 15 <= clock w ->
  UserTimeline e = (tweets, None) ->
  let called := clock w + Z.of_N (elapsed e) in
  let returned := called + Z.of_N (fetch_took e) in
  Refresher_iteration e w =
    ({| cache := {| Tweets := tweets; LastRefresh := returned |}; clock := returned |},
     [EvFetch called returned; EvCommit tweets returned]).
Proof.
  intros Hzero Hclock Hut called returned.
  assert (Hdue : due e w = true).
  { apply due_spec. rewrite Hzero. cbn [LastRefresh TweetCache_zero].
    pose proof (N2Z.is_nonneg (elapsed e)). lia. }
  destruct (Refresher_iteration_result e w) as [Hw|? ? _ Hut'|? _ Hut' Hlen|? _ Hut' Hlen].
  - congruence.
  - congruence.
  - rewrite Hzero in Hlen. unfold len in Hlen. cbn in Hlen. lia.
  - rewrite Hut in Hut'. injection Hut' as <-. reflexivity.
Qed.

Lemma Refresher_first_answer_is_committed_witness :
  cache world_start = TweetCache_zero /\
  Minute * 15 <= clock world_start /\
  UserTimeline env_abc = ([tweet_a; tweet_b; tweet_c], None) /\
  Refresher_iteration env_abc world_start =
    ({| cache := {| Tweets := [tweet_a; tweet_b; tweet_c];
                    LastRefresh := clock world_start + Z.of_N (elapsed env_abc) +
                                   Z.of_N (fetch_took env_abc) |};
        clock := clock world_start + Z.of_N (elapsed env_abc) +
                 Z.of_N (fetch_took env_abc) |},
     [EvFetch (clock world_start + Z.of_N (elapsed env_abc))
              (clock world_start + Z.of_N (elapsed env_abc) + Z.of_N (fetch_took env_abc));
      EvCommit [tweet_a; tweet_b; tweet_c]
               (clock world_start + Z.of_N (elapsed env_abc) + Z.of_N (fetch_took env_abc))]).
Proof.
  split; [reflexivity|]. split; [vm_compute; discriminate|]. split; [reflexivity|].
  apply (Refresher_first_answer_is_committed env_abc world_start [tweet_a; tweet_b; tweet_c]).
  - reflexivity.
  - vm_compute. discriminate.
  - reflexivity.
Defined.

Lemma Refresher_iteration_LastRefresh (e : Env) (w : World) :
  LastRefresh (cache w) <= LastRefresh (cache (fst (Refresher_iteration e w))) /\
  Forall (fun t => LastRefresh (cache w) + Minute * 15 <= t)
         (fetch_calls (snd (Refresher_iteration e w))).
Proof.
  pose proof (due_spec e w) as Hd. pose proof (N2Z.is_nonneg (fetch_took e)).
  assert (0 < Minute * 15) by reflexivity.
  destruct (Refresher_iteration_result e w) as [Hw|? ? Hdue|? Hdue|? Hdue];
    cbn [fst snd cache LastRefresh fetch_calls omap];
    try (apply Hd in Hdue); (split; [lia | repeat constructor; lia]).
Qed.


(** X4. No pause after a fetch that commits nothing: when an iteration has
    fetched and the answer was an error or too short, the next iteration
    fetches again, however little time its interval check finds gone (after
    an error the five-minute sleep lies in between, after a short answer
    nothing does). *)
Theorem Refresher_retries_until_commit (e e' : Env) (w : World) :
  due e w = true ->
  commits (snd (Refresher_iteration e w)) = [] ->
  let w1 := fst (Refresher_iteration e w) in
  due e' w1 = true /\
  fetch_calls (snd (Refresher_iteration e' w1)) = [clock w1 + Z.of_N (elapsed e')].
Proof.
  intros Hdue Hnone w1.
  assert (Hd1 : due e' w1 = true).
  { apply due_spec. apply due_spec in Hdue. subst w1.
    pose proof (N2Z.is_nonneg (elapsed e')). pose proof (N2Z.is_nonneg (fetch_took e)).
    pose proof (N2Z.is_nonneg (overslept e)). assert (0 < Minute * 5) by reflexivity.
    destruct (Refresher_iteration_result e w) as [Hw|tw err _ Hut|tw _ Hut Hlen|tw _ Hut Hlen];
      cbn [fst snd cache clock LastRefresh commits omap] in *;
      try discriminate; lia. }
  split; [exact Hd1|].
  destruct (Refresher_iteration_result e' w1)
    as [Hw|tw err _ Hut|tw _ Hut Hlen|tw _ Hut Hlen];
    cbn [snd fetch_calls omap]; first [reflexivity | congruence].
Qed.

Lemma Refresher_retries_until_commit_witness :
  due env_short world_abc = true /\
  commits (snd (Refresher_iteration env_short world_abc)) = [] /\
  due env_spin (fst (Refresher_iteration env_short world_abc)) = true /\
  fetch_calls (snd (Refresher_iteration env_spin
                      (fst (Refresher_iteration env_short world_abc)))) =
    [clock (fst (Refresher_iteration env_short world_abc)) + Z.of_N (elapsed env_spin)].
Proof.
  split; [vm_compute; reflexivity|]. split; [vm_compute; reflexivity|].
  apply (Refresher_retries_until_commit env_short env_spin world_abc).
  - vm_compute. reflexivity.
  - vm_compute. reflexivity.
Defined.

Lemma Refresher_iteration_sleeps (e : Env) (w : World) :
  sleeps (snd (Refresher_iteration e w)) =
    match due e w, snd (UserTimeline e) with
    | true, Some _ => [Minute * 5]
    | _, _ => []
    end.
Proof.
  destruct (Refresher_iteration_result e w)
    as [Hw|tw err Hdue Hut|tw Hdue Hut Hlen|tw Hdue Hut Hlen];
    cbn [snd sleeps omap]; rewrite ?Hw, ?Hdue, ?Hut; reflexivity.
Qed.


(** X6. While the upstream never answers with an error, the loop never
    sleeps, whatever the answers hold and however long it runs. *)
Theorem Refresher_never_sleeps_without_errors (es : list Env) (w : World) :
  Forall (fun e => snd (UserTimeline e) = None) es ->
  sleeps (snd (Refresher es w)) = [].
Proof.
  intros Hok. revert w. induction Hok as [|e es He _ IH]; intros w; [reflexivity|].
  rewrite Refresher_cons. cbn [snd]. unfold sleeps. rewrite omap_app.
  fold (sleeps (snd (Refresher_iteration e w))).
  fold (sleeps (snd (Refresher es (fst (Refresher_iteration e w))))).
  rewrite IH, Refresher_iteration_sleeps, He. now destruct (due e w).
Qed.

Lemma Refresher_never_sleeps_without_errors_witness :
  Forall (fun e => snd (UserTimeline e) = None) [env_abc; env_short; env_spin] /\
  sleeps (snd (Refresher [env_abc; env_short; env_spin] world_start)) = [].
Proof.
  assert (H : Forall (fun e => snd (UserTimeline e) = None) [env_abc; env_short; env_spin])
    by (repeat constructor).
  split; [exact H|].
  apply (Refresher_never_sleeps_without_errors [env_abc; env_short; env_spin] world_start H).
Defined.


Lemma Refresher_iteration_times (e : Env) (w : World) :
  LastRefresh (cache w) <= clock w ->
  clock w <= clock (fst (Refresher_iteration e w)) /\
  LastRefresh (cache (fst (Refresher_iteration e w))) <=
    clock (fst (Refresher_iteration e w)).
Proof.
  intros Hinv.
  pose proof (N2Z.is_nonneg (elapsed e)). pose proof (N2Z.is_nonneg (fetch_took e)).
  pose proof (N2Z.is_nonneg (overslept e)). assert (0 < Minute * 5) by reflexivity.
  destruct (Refresher_iteration_result e w); cbn [fst cache clock LastRefresh]; lia.
Qed.

(** X8. Time stamps stay sane: if [LastRefresh] does not lie in the future
    when a run begins, then after the run it still does not, it has not
    moved backwards, and neither has the clock. *)
Theorem Refresher_LastRefresh_not_in_future (es : list Env) (w : World) :
  LastRefresh (cache w) <= clock w ->
  let w' := fst (Refresher es w) in
  LastRefresh (cache w) <= LastRefresh (cache w') /\
  LastRefresh (cache w') <= clock w' /\
  clock w <= clock w'.
Proof.
  revert w. induction es as [|e es IH]; intros w Hinv; cbn zeta.
  - cbn. lia.
  - rewrite Refresher_cons. cbn [fst].
    destruct (Refresher_iteration_times e w Hinv) as [Hclock Hinv1].
    destruct (Refresher_iteration_LastRefresh e w) as [Hlr _].
    specialize (IH _ Hinv1). cbn zeta in IH. lia.
Qed.

Lemma Refresher_LastRefresh_not_in_future_witness :
  LastRefresh (cache world_start) <= clock world_start /\
  LastRefresh (cache world_start) <=
    LastRefresh (cache (fst (Refresher [env_abc; env_error] world_start))) /\
  LastRefresh (cache (fst (Refresher [env_abc; env_error] world_start))) <=
    clock (fst (Refresher [env_abc; env_error] world_start)) /\
  clock world_start <= clock (fst (Refresher [env_abc; env_error] world_start)).
Proof.
  split; [vm_compute; discriminate|].
  apply (Refresher_LastRefresh_not_in_future [env_abc; env_error] world_start).
  vm_compute. discriminate.
Defined.

Lemma Refresher_length_mono (es : list Env) :
  forall w, (length (Tweets (cache w)) <=
             length (Tweets (cache (fst (Refresher es w)))))%nat.
Proof.
  induction es as [|e es IH]; intros w; [reflexivity|].
  rewrite Refresher_cons. cbn [fst].
  specialize (IH (fst (Refresher_iteration e w))).
  destruct (Refresher_iteration_result e w); cbn [fst cache Tweets] in *;
    unfold len in *; lia.
Qed.

(** X9. Nothing disappears: a position at which [GetOnPosition] succeeds
    keeps succeeding after any number of refresh iterations, whatever the
    upstream answers in between. *)
Theorem GetOnPosition_stays_available (es : list Env) (w : World) (pos : Z) :
  0 <= pos ->
  succeeds (GetOnPosition (cache w) pos) ->
  succeeds (GetOnPosition (cache (fst (Refresher es w))) pos).
Proof.
  intros Hpos [s Hs].
  assert (Hlt : pos < len (Tweets (cache w))).
  { destruct (Z.lt_ge_cases pos (len (Tweets (cache w)))) as [?|Hge]; [assumption|].
    rewrite GetOnPosition_beyond in Hs by (left; lia). discriminate. }
  pose proof (Refresher_length_mono es w) as Hmono. unfold len in Hlt.
  destruct (lookup_lt_is_Some_2 (Tweets (cache (fst (Refresher es w)))) (Z.to_nat pos))
    as [tweet Htw]; [lia|].
  exists (tweet_and_author tweet). now apply GetOnPosition_available.
Qed.

Lemma GetOnPosition_stays_available_witness :
  0 <= 2 /\
  succeeds (GetOnPosition (cache world_abc) 2) /\
  succeeds (GetOnPosition (cache (fst (Refresher [env_short; env_error] world_abc))) 2).
Proof.
  assert (H : succeeds (GetOnPosition (cache world_abc) 2))
    by (eexists; vm_compute; reflexivity).
  split; [lia|]. split; [exact H|].
  apply (GetOnPosition_stays_available [env_short; env_error] world_abc 2); [lia | exact H].
Defined.

(** * Further properties of the cache reader and the handler *)

(** X10. [GetOnPosition] panics in exactly one situation, a negative
    position on a cache that holds tweets (the slice is then indexed out of
    range); on an empty cache every position, negative ones too, gets the
    "twit not available" error. *)
Theorem GetOnPosition_panics_iff_negative (tc : TweetCache) (pos : Z) (p : runtime_error) :
  (GetOnPosition tc pos = Panic p <->
   pos < 0 /\ Tweets tc <> [] /\ p = IndexOutOfRange pos (len (Tweets tc))) /\
  (Tweets tc = [] -> GetOnPosition tc pos = Ret (EmptyString, Some twit_not_available)).
Proof.
  split; [|intros Hempty; apply GetOnPosition_beyond; now right].
  split.
  - intros Hpanic.
    destruct (Tweets tc) as [|tweet rest] eqn:Htw.
    { rewrite GetOnPosition_beyond in Hpanic by now right. discriminate. }
    destruct (Z.lt_ge_cases pos 0) as [Hneg|Hpos].
    + rewrite GetOnPosition_negative in Hpanic by (rewrite ?Htw; easy).
      injection Hpanic as <-. rewrite Htw. easy.
    + destruct (Z.lt_ge_cases pos (len (Tweets tc))) as [Hlt|Hge].
      * unfold len in Hlt.
        destruct (lookup_lt_is_Some_2 (Tweets tc) (Z.to_nat pos)) as [tw Hlk]; [lia|].
        rewrite (GetOnPosition_available _ _ tw Hpos Hlk) in Hpanic. discriminate.
      * rewrite GetOnPosition_beyond in Hpanic by now left. discriminate.
  - intros (Hneg & Hne & ->). now apply GetOnPosition_negative.
Qed.

Lemma GetOnPosition_panics_iff_negative_witness :
  Tweets TweetCache_zero = [] /\
  GetOnPosition TweetCache_zero (-3) = Ret (EmptyString, Some twit_not_available).
Proof.
  split; [reflexivity|].
  apply (GetOnPosition_panics_iff_negative TweetCache_zero (-3) (IndexOutOfRange 0 0)).
  reflexivity.
Defined.

(** X11. The page of one tweet: for a position inside the cache, [showTweet]
    answers 20 with the header, a blank line, the tweet's text, a blank line,
    the author's name and the footer, and that is the response to
    [/select_tweet] with a single key that [strconv.Atoi] reads as that
    position. *)
Theorem showTweet_in_range_page (fs : gmap string string) (pick : nat) (rh : RequestHandler)
    (key : string) (v : list string) (n : Z) (tweet : Tweet) :
  0 <= n ->
  Tweets (RH_TweetCache rh) !! Z.to_nat n = Some tweet ->
  strconv_Atoi key = (n, None) ->
  let page := success_page (getHeader fs rh +:+
                            (LF +:+ LF +:+ Text tweet +:+ LF +:+ LF +:+
                             Name (Tweet_User tweet)) +:+
                            getFooter rh) in
  showTweet fs rh n = Ret page /\
  Handle fs pick rh (request "/select_tweet" {[ key := v ]}) = Ret page.
Proof.
  intros Hn Hlk Hatoi page.
  assert (Hshow : showTweet fs rh n = Ret page).
  { unfold showTweet, formatTweet.
    rewrite (GetOnPosition_available _ _ tweet Hn Hlk). reflexivity. }
  split; [exact Hshow|].
  now rewrite (Handle_select_parsed fs pick rh key v n Hatoi).
Qed.

Lemma showTweet_in_range_page_witness :
  0 <= 2 /\
  Tweets (RH_TweetCache handler_abc) !! Z.to_nat 2 = Some tweet_c /\
  strconv_Atoi "+02" = (2, None) /\
  showTweet ∅ handler_abc 2 =
    Ret (success_page (getHeader ∅ handler_abc +:+
                       (LF +:+ LF +:+ Text tweet_c +:+ LF +:+ LF +:+
                        Name (Tweet_User tweet_c)) +:+
                       getFooter handler_abc)) /\
  Handle ∅ 0 handler_abc (request "/select_tweet" {[ "+02" := [EmptyString] ]}) =
    Ret (success_page (getHeader ∅ handler_abc +:+
                       (LF +:+ LF +:+ Text tweet_c +:+ LF +:+ LF +:+
                        Name (Tweet_User tweet_c)) +:+
                       getFooter handler_abc)).
Proof.
  split; [lia|]. split; [reflexivity|]. split; [reflexivity|].
  apply (showTweet_in_range_page ∅ 0%nat handler_abc "+02" [EmptyString] 2 tweet_c);
    [lia | reflexivity | reflexivity].
Defined.

Lemma formatTweet_available (rh : RequestHandler) (k : nat) (tweet : Tweet) :
  Tweets (RH_TweetCache rh) !! k = Some tweet ->
  formatTweet rh (Z.of_nat k) = Ret (LF +:+ LF +:+ tweet_and_author tweet).
Proof.
  intros Hk. unfold formatTweet.
  rewrite (GetOnPosition_available _ _ tweet) by (rewrite ?Nat2Z.id; first [lia | assumption]).
  reflexivity.
Qed.

Lemma formatTimeline_loop_pieces (rh : RequestHandler) (n : nat) :
  forall (k : nat) (acc : string),
    formatTimeline_loop rh n (Z.of_nat k) acc =
    Ret (acc +:+ concat_all (map
      (fun i => match formatTweet rh (Z.of_nat i) with
                | Ret (String _ _ as content) =>
                    content +:+ LF +:+ LF +:+ Delimiter (Config_UI (RH_Config rh))
                | _ => EmptyString
                end) (seq k n))).
Proof.
  induction n as [|n IH]; intros k acc.
  - cbn [formatTimeline_loop seq map concat_all foldr]. now rewrite append_empty_r.
  - cbn [formatTimeline_loop seq map concat_all foldr].
    replace (Z.of_nat k + 1) with (Z.of_nat (S k)) by lia.
    destruct (Tweets (RH_TweetCache rh) !! k) as [tweet|] eqn:Hk.
    + rewrite (formatTweet_available rh k tweet Hk).
      rewrite (GetOnPosition_available _ _ tweet)
        by (rewrite ?Nat2Z.id; first [lia | assumption]).
      cbn [bind]. rewrite IH. fold concat_all.
      now rewrite append_assoc.
    + apply lookup_ge_None in Hk.
      rewrite formatTweet_unavailable by (right; unfold len; lia).
      rewrite GetOnPosition_beyond by (left; unfold len; lia).
      cbn [bind]. rewrite IH. reflexivity.
Qed.

(** X12. The timeline is put together from what the single-tweet pages
    show: for the positions 0 to 9 in order it is the content [formatTweet]
    gives for that position followed by a blank line and the delimiter, and
    a position for which [formatTweet] gives nothing adds nothing. *)
Theorem formatTimeline_composes_formatTweet (rh : RequestHandler) :
  formatTimeline rh =
  Ret (concat_all (map
    (fun i => match formatTweet rh (Z.of_nat i) with
              | Ret (String _ _ as content) =>
                  content +:+ LF +:+ LF +:+ Delimiter (Config_UI (RH_Config rh))
              | _ => EmptyString
              end) (seq 0 10))).
Proof.
  unfold formatTimeline. change 0 with (Z.of_nat 0) at 1.
  now rewrite (formatTimeline_loop_pieces rh 10 0 EmptyString).
Qed.

(** X13. With an empty cache the timeline page and the latest-tweet page
    are the same response: status 20, header and footer. *)
Theorem Handle_empty_cache_pages_coincide
    (fs : gmap string string) (pick : nat) (rh : RequestHandler)
    (q q' : gmap string (list string)) :
  Tweets (RH_TweetCache rh) = [] ->
  Handle fs pick rh (request "/timeline" q) =
    Ret (success_page (getHeader fs rh +:+ getFooter rh)) /\
  Handle fs pick rh (request "/timeline" q) = Handle fs pick rh (request "/" q').
Proof.
  intros Hempty.
  assert (Htl : Handle fs pick rh (request "/timeline" q) =
                Ret (success_page (getHeader fs rh +:+ getFooter rh))).
  { rewrite Handle_timeline by reflexivity. unfold showTimeline.
    rewrite formatTimeline_spec, Hempty. reflexivity. }
  split; [exact Htl|]. rewrite Htl.
  rewrite Handle_root by reflexivity. unfold showTweet.
  rewrite formatTweet_unavailable by now left. reflexivity.
Qed.

Lemma Handle_empty_cache_pages_coincide_witness :
  Tweets (RH_TweetCache handler_empty) = [] /\
  Handle ∅ 0 handler_empty (request "/timeline" ∅) =
    Ret (success_page (getHeader ∅ handler_empty +:+ getFooter handler_empty)) /\
  Handle ∅ 0 handler_empty (request "/timeline" ∅) =
    Handle ∅ 0 handler_empty (request "/" {[ "x" := [EmptyString] ]}).
Proof.
  split; [reflexivity|].
  apply (Handle_empty_cache_pages_coincide ∅ 0%nat handler_empty ∅
           {[ "x" := [EmptyString] ]}).
  reflexivity.
Defined.

(** X14. The logo file is the only file the handler looks at: two file
    systems that agree on the configured logo path give the same outcome
    for every request. *)
Theorem Handle_reads_only_logo_file (fs fs' : gmap string string) (pick : nat)
    (rh : RequestHandler) (r : Request) :
  fs !! AsciiLogoFile (Config_UI (RH_Config rh)) =
    fs' !! AsciiLogoFile (Config_UI (RH_Config rh)) ->
  Handle fs pick rh r = Handle fs' pick rh r.
Proof.
  intros Hlogo. apply Handle_depends_on_header.
  unfold getHeader, os_Open. now rewrite Hlogo.
Qed.

Lemma Handle_reads_only_logo_file_witness :
  (∅ : gmap string string) !! AsciiLogoFile (Config_UI (RH_Config handler_abc)) =
    ({[ "motd.txt" := "hello" ]} : gmap string string)
      !! AsciiLogoFile (Config_UI (RH_Config handler_abc)) /\
  Handle ∅ 0 handler_abc (request "/" ∅) =
    Handle {[ "motd.txt" := "hello" ]} 0 handler_abc (request "/" ∅).
Proof.
  split; [reflexivity|].
  apply (Handle_reads_only_logo_file ∅ {[ "motd.txt" := "hello" ]} 0%nat handler_abc
           (request "/" ∅)).
  reflexivity.
Defined.

(** X15. [getFirstKeyFromURL] gives the empty string for a URL without
    query keys and otherwise one of the keys of the query, whichever order
    the map is visited in. *)
Theorem getFirstKeyFromURL_is_a_key (pick : nat) (u : URL) :
  (Query u = ∅ -> getFirstKeyFromURL pick u = EmptyString) /\
  (Query u <> ∅ -> is_Some (Query u !! getFirstKeyFromURL pick u)).
Proof.
  unfold getFirstKeyFromURL. split.
  - intros ->. now rewrite map_to_list_empty.
  - intros Hne.
    destruct (map_to_list (Query u)) as [|kv rest] eqn:Hl.
    { apply map_to_list_empty_iff in Hl. contradiction. }
    set (params := kv :: rest) in *.
    assert (Hin : In (nth (pick mod length params) params kv) params).
    { apply nth_In. apply Nat.mod_upper_bound. discriminate. }
    destruct (nth (pick mod length params) params kv) as [k v] eqn:Hnth.
    apply list_elem_of_In in Hin. rewrite <- Hl in Hin.
    apply elem_of_map_to_list in Hin. cbn [fst]. now exists v.
Qed.

Lemma getFirstKeyFromURL_is_a_key_witness :
  let u := {| Path := "/select_tweet";
              Query := {[ "7" := [EmptyString]; "x" := ["y"] ]} |} in
  Query u <> ∅ /\ is_Some (Query u !! getFirstKeyFromURL 3 u).
Proof.
  intros u.
  assert (Hne : Query u <> ∅).
  { intros Hq. apply (f_equal (fun m => m !! "7")) in Hq. vm_compute in Hq. discriminate. }
  split; [exact Hne|].
  apply (getFirstKeyFromURL_is_a_key 3 u). exact Hne.
Defined.

(** X16. Route matching is exact: [Handle] answers 51 "Unknown location"
    if and only if the path is none of [/], [/timeline] and [/select_tweet];
    the query, the cache and the files play no part. *)
Theorem Handle_unknown_location_iff (fs : gmap string string) (pick : nat)
    (rh : RequestHandler) (r : Request) :
  Handle fs pick rh r = Ret unknown_location <->
  Path (Request_URL r) <> "/" /\ Path (Request_URL r) <> "/timeline" /\
  Path (Request_URL r) <> "/select_tweet".
Proof.
  split; [|intros (H1 & H2 & H3); now apply Handle_elsewhere].
  destruct (String.eqb_spec (Path (Request_URL r)) "/") as [H1|H1].
  { rewrite Handle_root by assumption.
    destruct (showTweet_outcome fs rh 0) as [[content ->]|(_ & _ & ->)]; discriminate. }
  destruct (String.eqb_spec (Path (Request_URL r)) "/timeline") as [H2|H2].
  { rewrite Handle_timeline by assumption.
    destruct (showTimeline_returns fs rh) as [content ->]. discriminate. }
  destruct (String.eqb_spec (Path (Request_URL r)) "/select_tweet") as [H3|H3]; [|easy].
  destruct (Nat.eq_dec (size (Query (Request_URL r))) 0%nat) as [Hsz|Hsz].
  - rewrite Handle_select_no_query by assumption. discriminate.
  - rewrite Handle_select_query by assumption.
    destruct (strconv_Atoi _) as [offset [err|]]; [discriminate|].
    destruct (showTweet_outcome fs rh offset) as [[content ->]|(_ & _ & ->)]; discriminate.
Qed.

(** X17. [Handle] asks for input (status 10) if and only if the path is
    [/select_tweet] and the query has no key at all. *)
Theorem Handle_input_prompt_iff (fs : gmap string string) (pick : nat)
    (rh : RequestHandler) (r : Request) :
  Handle fs pick rh r = Ret input_prompt <->
  Path (Request_URL r) = "/select_tweet" /\ Query (Request_URL r) = ∅.
Proof.
  split.
  - destruct (String.eqb_spec (Path (Request_URL r)) "/") as [H1|H1].
    { rewrite Handle_root by assumption.
      destruct (showTweet_outcome fs rh 0) as [[content ->]|(_ & _ & ->)]; discriminate. }
    destruct (String.eqb_spec (Path (Request_URL r)) "/timeline") as [H2|H2].
    { rewrite Handle_timeline by assumption.
      destruct (showTimeline_returns fs rh) as [content ->]. discriminate. }
    destruct (String.eqb_spec (Path (Request_URL r)) "/select_tweet") as [H3|H3].
    + destruct (Nat.eq_dec (size (Query (Request_URL r))) 0%nat) as [Hsz|Hsz].
      * intros _. split; [assumption | now apply map_size_empty_iff].
      * rewrite Handle_select_query by assumption.
        destruct (strconv_Atoi _) as [offset [err|]]; [discriminate|].
        destruct (showTweet_outcome fs rh offset) as [[content ->]|(_ & _ & ->)];
          discriminate.
    + rewrite Handle_elsewhere by assumption. discriminate.
  - intros [Hpath Hq]. apply Handle_select_no_query; [assumption|].
    rewrite Hq. apply map_size_empty.
Qed.

(** X18. [Handle] answers 42 "Failed to parse input. Please use numbers."
    if and only if the path is [/select_tweet], the query has a key, and
    [strconv.Atoi] reports an error for the key that comes first. *)
Theorem Handle_parse_failure_iff (fs : gmap string string) (pick : nat)
    (rh : RequestHandler) (r : Request) :
  Handle fs pick rh r = Ret parse_failure <->
  Path (Request_URL r) = "/select_tweet" /\ Query (Request_URL r) <> ∅ /\
  snd (strconv_Atoi (getFirstKeyFromURL pick (Request_URL r))) <> None.
Proof.
  split.
  - destruct (String.eqb_spec (Path (Request_URL r)) "/") as [H1|H1].
    { rewrite Handle_root by assumption.
      destruct (showTweet_outcome fs rh 0) as [[content ->]|(_ & _ & ->)]; discriminate. }
    destruct (String.eqb_spec (Path (Request_URL r)) "/timeline") as [H2|H2].
    { rewrite Handle_timeline by assumption.
      destruct (showTimeline_returns fs rh) as [content ->]. discriminate. }
    destruct (String.eqb_spec (Path (Request_URL r)) "/select_tweet") as [H3|H3].
    + destruct (Nat.eq_dec (size (Query (Request_URL r))) 0%nat) as [Hsz|Hsz].
      * rewrite Handle_select_no_query by assumption. discriminate.
      * rewrite Handle_select_query by assumption.
        assert (Hq : Query (Request_URL r) <> ∅).
        { intros Hq. apply Hsz. rewrite Hq. apply map_size_empty. }
        destruct (strconv_Atoi _) as [offset [err|]]; [easy|].
        destruct (showTweet_outcome fs rh offset) as [[content ->]|(_ & _ & ->)];
          discriminate.
    + rewrite Handle_elsewhere by assumption. discriminate.
  - intros (Hpath & Hq & Herr).
    rewrite Handle_select_query; [|assumption|].
    + destruct (strconv_Atoi _) as [offset [err|]]; [reflexivity | now elim Herr].
    + intros Hsz. apply Hq. now apply map_size_empty_iff.
Qed.

(** X19. What [Handle] can do, all told: for every request it either
    returns a status-20 page made of header, content and footer, the input
    prompt, the parse failure or the unknown-location response, or it
    panics, and it panics exactly for [/select_tweet] with a first key that
    [strconv.Atoi] reads as a negative number while the cache holds
    tweets. *)
Theorem Handle_outcome (fs : gmap string string) (pick : nat)
    (rh : RequestHandler) (r : Request) :
  (exists resp, Handle fs pick rh r = Ret resp /\
     ((exists content,
         resp = success_page (getHeader fs rh +:+ content +:+ getFooter rh)) \/
      resp = input_prompt \/ resp = parse_failure \/ resp = unknown_location)) \/
  (exists offset,
     Path (Request_URL r) = "/select_tweet" /\ Query (Request_URL r) <> ∅ /\
     strconv_Atoi (getFirstKeyFromURL pick (Request_URL r)) = (offset, None) /\
     offset < 0 /\ Tweets (RH_TweetCache rh) <> [] /\
     Handle fs pick rh r = Panic (IndexOutOfRange offset (len (Tweets (RH_TweetCache rh))))).
Proof.
  destruct (Handle fs pick rh r) as [resp|p] eqn:HH.
  - left. exists resp. split; [reflexivity|].
    destruct (Handle_returns_documented _ _ _ _ _ HH); auto.
    left. now exists content.
  - right. apply Handle_panics_iff in HH as (Hpath & Hsz & offset & Hatoi & Hneg & Hne & ->).
    exists offset. repeat split; try assumption.
    intros Hq. apply Hsz. rewrite Hq. apply map_size_empty.
Qed.

(** X20. The pages [/] and [/timeline] cannot fail: whatever the query, the
    cache and the files, [Handle] answers them with status 20, meta
    "text/gemini" and a body that begins with the header and ends with the
    footer. *)
Theorem Handle_root_and_timeline_succeed (fs : gmap string string) (pick : nat)
    (rh : RequestHandler) (r : Request) :
  Path (Request_URL r) = "/" \/ Path (Request_URL r) = "/timeline" ->
  exists content,
    Handle fs pick rh r =
      Ret {| Status := 20; Meta := "text/gemini";
             Body := Some (getHeader fs rh +:+ content +:+ getFooter rh);
             Response_Cert := None |}.
Proof.
  intros [Hpath|Hpath].
  - rewrite Handle_root by assumption.
    destruct (showTweet_in_range fs rh 0) as [content ->]; [now left|].
    now exists content.
  - rewrite Handle_timeline by assumption.
    destruct (showTimeline_returns fs rh) as [content ->]. now exists content.
Qed.

Lemma Handle_root_and_timeline_succeed_witness :
  (Path (Request_URL (request "/timeline" {[ "-1" := [EmptyString] ]})) = "/" \/
   Path (Request_URL (request "/timeline" {[ "-1" := [EmptyString] ]})) = "/timeline") /\
  exists content,
    Handle ∅ 0 handler_abc (request "/timeline" {[ "-1" := [EmptyString] ]}) =
      Ret {| Status := 20; Meta := "text/gemini";
             Body := Some (getHeader ∅ handler_abc +:+ content +:+ getFooter handler_abc);
             Response_Cert := None |}.
Proof.
  split; [right; reflexivity|].
  apply (Handle_root_and_timeline_succeed ∅ 0%nat handler_abc
           (request "/timeline" {[ "-1" := [EmptyString] ]})).
  right; reflexivity.
Defined.

Lemma digits_string_of_uint (d : Decimal.uint) :
  forall a : nat,
    digits (DecimalString.NilEmpty.string_of_uint d) (Z.of_nat a) =
    Some (Z.of_nat (Nat.of_uint_acc d a)).
Proof.
  induction d as [|d IH|d IH|d IH|d IH|d IH|d IH|d IH|d IH|d IH|d IH]; intros a;
    cbn [DecimalString.NilEmpty.string_of_uint digits Nat.of_uint_acc];
    [reflexivity|..];
    match goal with
    | |- context [digit_of ?c] =>
        let v := eval vm_compute in (digit_of c) in change (digit_of c) with v
    end;
    cbv iota; rewrite <- IH; f_equal; rewrite Nat.tail_mul_spec; lia.
Qed.

Lemma strconv_Atoi_decimal (n : nat) :
  Z.of_nat n <= maxInt -> strconv_Atoi (decimal n) = (Z.of_nat n, None).
Proof.
  intros Hmax. unfold decimal.
  pose proof (DecimalNat.Unsigned.of_to n) as Hof.
  pose proof (digits_string_of_uint (Nat.to_uint n) 0) as Hd.
  change (Nat.of_uint_acc (Nat.to_uint n) 0) with (Nat.of_uint (Nat.to_uint n)) in Hd.
  rewrite Hof in Hd. change (Z.of_nat 0) with 0 in Hd.
  change maxInt with 9223372036854775807 in Hmax.
  destruct (Nat.to_uint n) as [|d|d|d|d|d|d|d|d|d|d] eqn:Hu;
    [cbn in Hof; subst n; discriminate Hu|..];
    cbn [DecimalString.NilEmpty.string_of_uint] in Hd |- *;
    unfold strconv_Atoi; simpl (Ascii.eqb _ _); cbv iota; cbn [orb];
    rewrite Hd;
    change minInt with (-9223372036854775808);
    change maxInt with 9223372036854775807;
    (destruct (Z.ltb_spec (Z.of_nat n) (-9223372036854775808)); [lia|]);
    (destruct (Z.ltb_spec 9223372036854775807 (Z.of_nat n)); [lia|]);
    reflexivity.
Qed.

(** X21. Typing a number works: for every [n] an [int] can hold, the
    request [/select_tweet?n], with [n] written in decimal as the only key,
    is answered by the page of position [n]: the tweet at [n] when the cache
    reaches that far, header and footer alone when it does not. *)
Theorem Handle_select_decimal_offset (fs : gmap string string) (pick : nat)
    (rh : RequestHandler) (n : nat) (v : list string) :
  Z.of_nat n <= maxInt ->
  let r := request "/select_tweet" {[ decimal n := v ]} in
  Handle fs pick rh r = showTweet fs rh (Z.of_nat n) /\
  (forall tweet, Tweets (RH_TweetCache rh) !! n = Some tweet ->
     Handle fs pick rh r =
       Ret (success_page (getHeader fs rh +:+
                          (LF +:+ LF +:+ Text tweet +:+ LF +:+ LF +:+
                           Name (Tweet_User tweet)) +:+
                          getFooter rh))) /\
  ((length (Tweets (RH_TweetCache rh)) <= n)%nat ->
     Handle fs pick rh r = Ret (success_page (getHeader fs rh +:+ getFooter rh))).
Proof.
  intros Hmax r.
  assert (HH : Handle fs pick rh r = showTweet fs rh (Z.of_nat n)).
  { apply Handle_select_parsed. now apply strconv_Atoi_decimal. }
  split; [exact HH|]. rewrite HH. split.
  - intros tweet Hlk. unfold showTweet. now rewrite (formatTweet_available rh n tweet Hlk).
  - intros Hge. unfold showTweet.
    rewrite formatTweet_unavailable by (right; unfold len; lia). reflexivity.
Qed.

Lemma Handle_select_decimal_offset_witness :
  Z.of_nat 12 <= maxInt /\
  Handle ∅ 0 handler_abc (request "/select_tweet" {[ decimal 12 := [EmptyString] ]}) =
    showTweet ∅ handler_abc (Z.of_nat 12) /\
  (forall tweet, Tweets (RH_TweetCache handler_abc) !! 12%nat = Some tweet ->
     Handle ∅ 0 handler_abc (request "/select_tweet" {[ decimal 12 := [EmptyString] ]}) =
       Ret (success_page (getHeader ∅ handler_abc +:+
                          (LF +:+ LF +:+ Text tweet +:+ LF +:+ LF +:+
                           Name (Tweet_User tweet)) +:+
                          getFooter handler_abc))) /\
  ((length (Tweets (RH_TweetCache handler_abc)) <= 12)%nat ->
     Handle ∅ 0 handler_abc (request "/select_tweet" {[ decimal 12 := [EmptyString] ]}) =
       Ret (success_page (getHeader ∅ handler_abc +:+ getFooter handler_abc))).
Proof.
  split; [vm_compute; discriminate|].
  apply (Handle_select_decimal_offset ∅ 0%nat handler_abc 12 [EmptyString]).
  vm_compute. discriminate.
Defined.

Example decimal_12 : decimal 12 = "12".
Proof. reflexivity. Qed.

(** X22. With at most one query key the answer does not depend on the
    order in which Go visits the map: any two visiting orders give the same
    outcome. *)
Theorem Handle_single_key_deterministic (fs : gmap string string) (pick pick' : nat)
    (rh : RequestHandler) (r : Request) :
  (size (Query (Request_URL r)) <= 1)%nat ->
  Handle fs pick rh r = Handle fs pick' rh r.
Proof.
  intros Hsize.
  assert (Hkey : getFirstKeyFromURL pick (Request_URL r) =
                 getFirstKeyFromURL pick' (Request_URL r)).
  { unfold getFirstKeyFromURL. rewrite <- length_map_to_list in Hsize.
    destruct (map_to_list (Query (Request_URL r))) as [|kv [|kv' rest]];
      [reflexivity | | cbn in Hsize; lia].
    cbn [length]. now rewrite !Nat.mod_1_r. }
  unfold Handle. now rewrite Hkey.
Qed.

Lemma Handle_single_key_deterministic_witness :
  (size (Query (Request_URL (request "/select_tweet" {[ "1" := [EmptyString] ]}))) <= 1)%nat /\
  Handle ∅ 0 handler_abc (request "/select_tweet" {[ "1" := [EmptyString] ]}) =
    Handle ∅ 5 handler_abc (request "/select_tweet" {[ "1" := [EmptyString] ]}).
Proof.
  split; [vm_compute; lia|].
  apply (Handle_single_key_deterministic ∅ 0%nat 5%nat handler_abc
           (request "/select_tweet" {[ "1" := [EmptyString] ]})).
  vm_compute. lia.
Defined.
